(** * weblate_stats: the statistics aggregator of zanata2weblate

    A shallow embedding of [src/weblate_stats.py]: the [LanguageTeam]
    registry, the [User] aggregator ([read_from_weblate_stats],
    [populate_total_stats], [needs_output], the two converters) and the
    report writer, followed by the properties of the specification.

    Python dictionaries are insertion-ordered association lists with string
    keys, integers are [Z], exceptions are an explicit error result. *)

From Stdlib Require Import List String Ascii ZArith Lia Bool.
From Stdlib Require Import Permutation Sorted DecimalString.
Import ListNotations.

Local Open Scope string_scope.
Local Open Scope list_scope.
Local Open Scope Z_scope.

(** ** Exceptions and results *)

Inductive exn : Type :=
| KeyError (key : string)
| TypeError
| AttributeError
| SystemExit (code : Z).

Inductive result (A : Type) : Type :=
| Ok (a : A)
| Raise (e : exn).

Arguments Ok {A} a.
Arguments Raise {A} e.

Definition bind {A B : Type} (c : result A) (k : A -> result B) : result B :=
  match c with
  | Ok a => k a
  | Raise e => Raise e
  end.

Notation "x <- c1 ;; c2" := (bind c1 (fun x => c2))
  (at level 61, c1 at next level, right associativity).

(** A loop whose body may raise: the first exception ends the loop. *)
Fixpoint for_each {A B : Type} (body : A -> B -> result A) (l : list B) (a : A)
  : result A :=
  match l with
  | [] => Ok a
  | x :: l' => a' <- body a x ;; for_each body l' a'
  end.

(** ** Python dictionaries with string keys *)

Module Dict.

Abbreviation t V := (list (string * V)) (only parsing).

Section Ops.
Context {V : Type}.

(** [d.get(k)] *)
Fixpoint get (k : string) (d : t V) : option V :=
  match d with
  | [] => None
  | (k', v) :: d' => if String.eqb k' k then Some v else get k d'
  end.

(** [k in d] *)
Definition mem (k : string) (d : t V) : bool :=
  match get k d with
  | Some _ => true
  | None => false
  end.

(** [d.get(k, dflt)] *)
Definition get_default (k : string) (dflt : V) (d : t V) : V :=
  match get k d with
  | Some v => v
  | None => dflt
  end.

(** [d[k]] on a plain dict *)
Definition getitem (k : string) (d : t V) : result V :=
  match get k d with
  | Some v => Ok v
  | None => Raise (KeyError k)
  end.

(** [d[k] = v]: an existing key keeps its position, a new key goes last *)
Fixpoint set (k : string) (v : V) (d : t V) : t V :=
  match d with
  | [] => [(k, v)]
  | (k', v') :: d' =>
      if String.eqb k' k then (k, v) :: d' else (k', v') :: set k v d'
  end.

Definition keys (d : t V) : list string := map fst d.
Definition values (d : t V) : list V := map snd d.
End Ops.

End Dict.

(** [x in l] for a list of strings *)
Definition contains (x : string) (l : list string) : bool :=
  existsb (String.eqb x) l.

(** Truth value of a list: empty (or [None]) is false. *)
Definition truthy {A : Type} (l : list A) : bool :=
  match l with
  | [] => false
  | _ :: _ => true
  end.

(** ** The data model of [User] *)

(** A counter set: state label -> accumulated word count.  In a bucket it is
    a [collections.defaultdict(int)], in the total bucket a plain dict. *)
Definition counters : Type := Dict.t Z.

(** [c[k] += n] on a [defaultdict(int)] (a missing key starts from 0), and on
    the plain total dicts, where the key is always present. *)
Definition iadd (k : string) (n : Z) (c : counters) : counters :=
  Dict.set k (Dict.get_default k 0 c + n) c.

(** What [self.stats[project][version]] can hold: the pair of counter sets
    made by [read_from_weblate_stats], or, under ["__total__"], one of the two
    dicts of totals stored by [populate_total_stats]. *)
Inductive slot : Type :=
| Bucket (translation_stats review_stats : counters)
| Totals (fields : counters).

Record User : Type := {
  user_id : string;
  lang : string;
  stats : Dict.t (Dict.t slot)
}.

Definition with_stats (self : User) (s : Dict.t (Dict.t slot)) : User :=
  {| user_id := user_id self; lang := lang self; stats := s |}.

(** One record of the statistics returned for a user. *)
Record WeblateStat : Type := {
  projectSlug : string;
  versionSlug : string;
  localeId : string;
  savedState : string;
  wordCount : Z
}.

Definition trans_fields : list string :=
  ["total"; "Translated"; "NeedReview"; "Approved"; "Rejected"].
Definition review_fields : list string :=
  ["total"; "Approved"; "Rejected"].

(** [User.__init__] *)
Definition new_User (user_id language_code : string) : User :=
  {| user_id := user_id; lang := language_code; stats := [] |}.

(** ** [User.read_from_weblate_stats] *)

(** [my_version[key][stat_state] += word_count; my_version[key]["total"] +=
    word_count].  A bucket has exactly the two keys; a dict of totals maps
    field names to integers, so subscripting it by [key] raises. *)
Definition count_into (key stat_state : string) (word_count : Z)
  (my_version : slot) : result slot :=
  match my_version with
  | Bucket t r =>
      if String.eqb key "translation-stats" then
        Ok (Bucket (iadd "total" word_count (iadd stat_state word_count t)) r)
      else if String.eqb key "review-stats" then
        Ok (Bucket t (iadd "total" word_count (iadd stat_state word_count r)))
      else Raise (KeyError key)
  | Totals c =>
      match Dict.get key c with
      | None => Raise (KeyError key)
      | Some _ => Raise TypeError
      end
  end.

(** The part of the loop body after the three guards: find or create the
    bucket and count the record into it. *)
Definition count_record (self : User) (weblate_stat : WeblateStat)
  : result User :=
  let project_id := projectSlug weblate_stat in
  let version := versionSlug weblate_stat in
  let stat_state := savedState weblate_stat in
  let word_count := wordCount weblate_stat in
  (* self.stats is a defaultdict(dict) *)
  let my_project := Dict.get_default project_id [] (stats self) in
  let my_project :=
    if negb (Dict.mem version my_project)
    then Dict.set version (Bucket [] []) my_project
    else my_project in
  my_version <- Dict.getitem version my_project ;;
  my_version <-
    (if contains stat_state trans_fields
     then count_into "translation-stats" stat_state word_count my_version
     else Ok my_version) ;;
  my_version <-
    (if contains stat_state review_fields
     then count_into "review-stats" stat_state word_count my_version
     else Ok my_version) ;;
  Ok (with_stats self
        (Dict.set project_id (Dict.set version my_version my_project)
           (stats self))).

(** The body of the loop over [weblate_stats]; each of the three [continue]
    statements returns the user unchanged. *)
Definition fold_record (project_list version_list : list string)
  (self : User) (weblate_stat : WeblateStat) : result User :=
  let project_id := projectSlug weblate_stat in
  let version := versionSlug weblate_stat in
  let lang' := localeId weblate_stat in
  if truthy project_list && negb (contains project_id project_list) then Ok self
  else if truthy version_list && negb (contains version version_list) then Ok self
  else if negb (String.eqb (lang self) lang') then Ok self
  else count_record self weblate_stat.

Definition read_from_weblate_stats (self : User)
  (weblate_stats : list WeblateStat) (project_list version_list : list string)
  : result User :=
  for_each (fold_record project_list version_list) weblate_stats self.

(** ** [User.populate_total_stats] *)

(** The result of [stats.get(key, {})]: a counter set, or an integer when
    [stats] is itself a dict of totals that has [key]. *)
Inductive value : Type :=
| VDict (c : counters)
| VInt (n : Z).

Definition slot_get (key : string) (st : slot) : value :=
  match st with
  | Bucket t r =>
      if String.eqb key "translation-stats" then VDict t
      else if String.eqb key "review-stats" then VDict r
      else VDict []
  | Totals c =>
      match Dict.get key c with
      | Some n => VInt n
      | None => VDict []
      end
  end.

(** [v.get(k, dflt)] *)
Definition value_get (k : string) (dflt : Z) (v : value) : result Z :=
  match v with
  | VDict c => Ok (Dict.get_default k dflt c)
  | VInt _ => Raise AttributeError
  end.

(** [for k in fields: total[k] += v.get(k, 0)] *)
Definition accumulate (fields : list string) (v : value) (total : counters)
  : result counters :=
  for_each (fun total k => n <- value_get k 0 v ;; Ok (iadd k n total))
    fields total.

(** [dict([(k, 0) for k in fields])] *)
Definition zero_counters (fields : list string) : counters :=
  map (fun k => (k, 0)) fields.

(** The body of the inner loop, on the pair [(total_trans, total_review)]. *)
Definition add_slot (totals : counters * counters) (entry : string * slot)
  : result (counters * counters) :=
  let '(total_trans, total_review) := totals in
  let '(version, st) := entry in
  let trans_stats := slot_get "translation-stats" st in
  total_trans <- accumulate trans_fields trans_stats total_trans ;;
  let review_stats := slot_get "review-stats" st in
  total_review <- accumulate review_fields review_stats total_review ;;
  Ok (total_trans, total_review).

Definition sum_stats (s : Dict.t (Dict.t slot)) : result (counters * counters) :=
  for_each
    (fun totals (entry : string * Dict.t slot) =>
       let '(project_id, versions) := entry in
       for_each add_slot versions totals)
    s (zero_counters trans_fields, zero_counters review_fields).

(** [self.stats[project][version] = st], [self.stats] being a
    [defaultdict(dict)]. *)
Definition set_slot (project version : string) (st : slot)
  (s : Dict.t (Dict.t slot)) : Dict.t (Dict.t slot) :=
  Dict.set project (Dict.set version st (Dict.get_default project [] s)) s.

Definition populate_total_stats (self : User) : result User :=
  totals <- sum_stats (stats self) ;;
  let '(total_trans, total_review) := totals in
  let s := set_slot "__total__" "translation-stats" (Totals total_trans)
             (stats self) in
  let s := set_slot "__total__" "review-stats" (Totals total_review) s in
  Ok (with_stats self s).

(** ** [User.needs_output] *)

(** [bool(self.stats) and all(self.stats.values())]: a dict is true when it
    is not empty. *)
Definition needs_output (self : User) (include_no_activities : bool) : bool :=
  if include_no_activities then true
  else truthy (stats self) && forallb truthy (Dict.values (stats self)).

(** ** The converters *)

(** A field of a CSV row: a string or an integer. *)
Inductive cell : Type :=
| CStr (s : string)
| CInt (n : Z).

Definition get_flattened_data_title : list cell :=
  map CStr
    ["user_id"; "lang"; "project"; "version";
     "translation-total"; "translated"; "needReview"; "approved"; "rejected";
     "review-total"; "review-approved"; "review-rejected"].

(** [[v.get(k, 0) for k in fields]] *)
Fixpoint collect (fields : list string) (v : value) : result (list cell) :=
  match fields with
  | [] => Ok []
  | k :: fields' =>
      n <- value_get k 0 v ;;
      rest <- collect fields' v ;;
      Ok (CInt n :: rest)
  end.

(** [st[k]] for [st = self.stats["__total__"][...]] *)
Definition slot_item (k : string) (st : slot) : result Z :=
  match st with
  | Totals c => Dict.getitem k c
  | Bucket _ _ => Raise (KeyError k)
  end.

(** [[self.stats["__total__"][key][k] for k in fields]] *)
Fixpoint collect_total (key : string) (fields : list string)
  (s : Dict.t (Dict.t slot)) : result (list cell) :=
  match fields with
  | [] => Ok []
  | k :: fields' =>
      st <- Dict.getitem key (Dict.get_default "__total__" [] s) ;;
      n <- slot_item k st ;;
      rest <- collect_total key fields' s ;;
      Ok (CInt n :: rest)
  end.

(** The rows appended for one project: one per version when [detail]. *)
Definition version_rows (self : User) (detail : bool) (project_id : string)
  (data : list (list cell)) (entry : string * slot) : result (list (list cell)) :=
  let '(version, st) := entry in
  let trans_stats := slot_get "translation-stats" st in
  let review_stats := slot_get "review-stats" st in
  if detail then
    ts <- collect trans_fields trans_stats ;;
    rs <- collect review_fields review_stats ;;
    Ok (data ++
        [[CStr (user_id self); CStr (lang self); CStr project_id; CStr version]
         ++ ts ++ rs])
  else Ok data.

Definition project_rows (self : User) (detail : bool)
  (data : list (list cell)) (entry : string * Dict.t slot)
  : result (list (list cell)) :=
  let '(project_id, versions) := entry in
  if String.eqb project_id "__total__" then Ok data
  else for_each (version_rows self detail project_id) versions data.

(** Returns the user as left by [populate_total_stats] and the rows. *)
Definition convert_to_flattened_data (self : User) (detail : bool)
  : result (User * list (list cell)) :=
  self <- populate_total_stats self ;;
  data <- for_each (project_rows self detail) (stats self) [] ;;
  ts <- collect_total "translation-stats" trans_fields (stats self) ;;
  rs <- collect_total "review-stats" review_fields (stats self) ;;
  Ok (self,
      data ++ [[CStr (user_id self); CStr (lang self); CStr "-"; CStr "-"]
               ++ ts ++ rs]).

(** The ["stats"] entry of the serializable form: the whole mapping, or the
    total bucket alone. *)
Inductive stats_view : Type :=
| AllStats (s : Dict.t (Dict.t slot))
| TotalStats (t : Dict.t slot).

Record serializable : Type := {
  ser_user_id : string;
  ser_lang : string;
  ser_stats : stats_view
}.

Definition convert_to_serializable_data (self : User) (detail : bool)
  : result (User * serializable) :=
  self <- populate_total_stats self ;;
  Ok (self,
      {| ser_user_id := user_id self;
         ser_lang := lang self;
         ser_stats :=
           if detail then AllStats (stats self)
           else TotalStats (Dict.get_default "__total__" [] (stats self)) |}).

(** ** The report writer *)

(** [User.__lt__]; [<] on Python strings is the lexicographic order of the
    character codes. *)
Definition User_lt (self other : User) : bool :=
  if negb (String.eqb (lang self) (lang other))
  then String.ltb (lang self) (lang other)
  else String.ltb (user_id self) (user_id other).

(** [sorted]: a stable sort that compares elements with [<] only. *)
Fixpoint insert (x : User) (l : list User) : list User :=
  match l with
  | [] => [x]
  | y :: l' => if User_lt y x then y :: insert x l' else x :: y :: l'
  end.

Definition sorted (l : list User) : list User := fold_right insert [] l.

(** What ends up in the output file. *)
Inductive written : Type :=
| CsvFile (rows : list (list cell))
| JsonFile (objects : list serializable).

Definition _write_stats_to_csvfile (users : list User) (detail : bool)
  : result written :=
  rows <- for_each
            (fun rows user =>
               r <- convert_to_flattened_data user detail ;;
               Ok (rows ++ snd r))
            users [get_flattened_data_title] ;;
  Ok (CsvFile rows).

Definition _write_stats_to_jsonfile (users : list User) (detail : bool)
  : result written :=
  objects <- for_each
               (fun objects user =>
                  r <- convert_to_serializable_data user detail ;;
                  Ok (objects ++ [snd r]))
               users [] ;;
  Ok (JsonFile objects).

(** The users handed to the two writers. *)
Definition users_to_write (users : list User) (include_no_activities : bool)
  : list User :=
  sorted (filter (fun user => needs_output user include_no_activities) users).

Definition write_stats_to_file (users : list User) (file_format : string)
  (include_no_activities detail : bool) : result written :=
  let users := users_to_write users include_no_activities in
  if String.eqb file_format "csv"
  then _write_stats_to_csvfile users detail
  else _write_stats_to_jsonfile users detail.

(** ** [LanguageTeam] *)

(** An identifier as the YAML loader yields it: quoted it is a string,
    unquoted and all digits it is an integer. *)
Inductive yaml_scalar : Type :=
| YStr (s : string)
| YInt (n : Z).

(** [str(i)] *)
Definition str (i : yaml_scalar) : string :=
  match i with
  | YStr s => s
  | YInt n => NilZero.string_of_int (Z.to_int n)
  end.

(** The value of one language code in the team file; reviewers and
    coordinators may be absent. *)
Record team_info : Type := {
  info_language : string;
  info_translators : list yaml_scalar;
  info_reviewers : option (list yaml_scalar);
  info_coordinators : option (list yaml_scalar)
}.

Record LanguageTeam : Type := {
  language_code : string;
  language : string;
  translators : list string;
  reviewers : list string;
  coordinators : list string
}.

(** [team_info.get(key, [])] *)
Definition or_empty (l : option (list yaml_scalar)) : list yaml_scalar :=
  match l with
  | Some l => l
  | None => []
  end.

(** [LanguageTeam.__init__] *)
Definition new_LanguageTeam (language_code : string) (info : team_info)
  : LanguageTeam :=
  {| language_code := language_code;
     language := info_language info;
     translators := map str (info_translators info);
     reviewers := map str (or_empty (info_reviewers info));
     coordinators := map str (or_empty (info_coordinators info)) |}.

(** [content] is the parsed team file; [sys.exit(1)] raises [SystemExit]. *)
Definition load_from_language_team_yaml (content : Dict.t team_info)
  (lang_list : list string) : result (list LanguageTeam) :=
  _ <- (if truthy lang_list then
          let lang_notfound :=
            filter (fun lang_code => negb (Dict.mem lang_code content))
              lang_list in
          if truthy lang_notfound then Raise (SystemExit 1) else Ok tt
        else Ok tt) ;;
  Ok (map (fun entry : string * team_info =>
             new_LanguageTeam (fst entry) (snd entry))
        (filter (fun entry : string * team_info =>
                   negb (truthy lang_list) || contains (fst entry) lang_list)
           content)).

(** [get_weblate_stats]: one [User] per translator of each team. *)
Definition team_users (language_teams : list LanguageTeam) : list User :=
  flat_map (fun team => map (fun user_id => new_User user_id (language_code team))
                          (translators team))
    language_teams.

(** ** Reading the model *)

(** The slot stored for a (project, version) pair, if any. *)
Definition find_slot (project version : string) (s : Dict.t (Dict.t slot))
  : option slot :=
  match Dict.get project s with
  | Some versions => Dict.get version versions
  | None => None
  end.

(** The counters of a (project, version) bucket, read the way the program
    reads them: a missing bucket or a missing key counts as 0. *)
Definition trans_count (self : User) (project version k : string) : Z :=
  match find_slot project version (stats self) with
  | Some (Bucket t _) => Dict.get_default k 0 t
  | _ => 0
  end.

Definition review_count (self : User) (project version k : string) : Z :=
  match find_slot project version (stats self) with
  | Some (Bucket _ r) => Dict.get_default k 0 r
  | _ => 0
  end.

(** A counter of the total bucket, [self.stats["__total__"][key][k]]. *)
Definition total_count (self : User) (key k : string) : option Z :=
  match find_slot "__total__" key (stats self) with
  | Some (Totals c) => Dict.get k c
  | _ => None
  end.

(** The users the program builds: made by the constructor, then filled by
    calls of [read_from_weblate_stats]. *)
Inductive folded : User -> Prop :=
| folded_new (user_id language_code : string) :
    folded (new_User user_id language_code)
| folded_read (self self' : User) (weblate_stats : list WeblateStat)
    (project_list version_list : list string) :
    folded self ->
    read_from_weblate_stats self weblate_stats project_list version_list
      = Ok self' ->
    folded self'.

(** Every state a user can be brought to by calls of the two mutating
    methods, in any order. *)
Inductive reachable : User -> Prop :=
| reachable_new (user_id language_code : string) :
    reachable (new_User user_id language_code)
| reachable_read (self self' : User) (weblate_stats : list WeblateStat)
    (project_list version_list : list string) :
    reachable self ->
    read_from_weblate_stats self weblate_stats project_list version_list
      = Ok self' ->
    reachable self'
| reachable_populate (self self' : User) :
    reachable self ->
    populate_total_stats self = Ok self' ->
    reachable self'.

(** No project maps to an empty dict. *)
Definition no_empty_project (s : Dict.t (Dict.t slot)) : Prop :=
  Forall (fun entry : string * Dict.t slot => snd entry <> []) s.

(** The filters let a record through. *)
Definition passes_filters (project_list version_list : list string) (self : User)
  (weblate_stat : WeblateStat) : Prop :=
  (project_list = [] \/ In (projectSlug weblate_stat) project_list) /\
  (version_list = [] \/ In (versionSlug weblate_stat) version_list) /\
  localeId weblate_stat = lang self.

(** The filters reject a record: its project is not in a non-empty project
    filter, or its version is not in a non-empty version filter, or its
    language is not the user's. *)
Definition filtered_out (project_list version_list : list string) (self : User)
  (weblate_stat : WeblateStat) : Prop :=
  (project_list <> [] /\ ~ In (projectSlug weblate_stat) project_list) \/
  (version_list <> [] /\ ~ In (versionSlug weblate_stat) version_list) \/
  localeId weblate_stat <> lang self.

(** The order of the report: language code first, then user id. *)
Definition key_le (a b : User) : Prop :=
  String.ltb (lang a) (lang b) = true \/
  (lang a = lang b /\ String.leb (user_id a) (user_id b) = true).

(** Every slot is a bucket and every project holds at least one version:
    what folding maintains. *)
Definition is_bucket (st : slot) : bool :=
  match st with
  | Bucket _ _ => true
  | Totals _ => false
  end.

Definition buckets_only (s : Dict.t (Dict.t slot)) : Prop :=
  Forall (fun entry : string * Dict.t slot =>
            snd entry <> [] /\
            Forall (fun e : string * slot => is_bucket (snd e) = true)
              (snd entry))
    s.

(** The slot a record is counted into: the stored one, or a fresh bucket. *)
Definition slot_or_new (project version : string) (s : Dict.t (Dict.t slot))
  : slot :=
  match find_slot project version s with
  | Some st => st
  | None => Bucket [] []
  end.

(** ** Sums over the stats mapping *)

(** The sum of [f] over the values of a dict, in iteration order. *)
Definition dsum {V : Type} (f : V -> Z) (d : Dict.t V) : Z :=
  fold_right (fun entry acc => f (snd entry) + acc) 0 d.

(** What one slot adds to field [k] of the totals of [key]. *)
Definition slot_field (key k : string) (st : slot) : Z :=
  match slot_get key st with
  | VDict c => Dict.get_default k 0 c
  | VInt _ => 0
  end.

(** Field [k] summed over every slot of every project. *)
Definition field_sum (key k : string) (s : Dict.t (Dict.t slot)) : Z :=
  dsum (dsum (slot_field key k)) s.

(** A slot on which both [.get] calls of [populate_total_stats] yield a
    dict: every bucket, and every dict of totals keyed by field names. *)
Definition clean (st : slot) : Prop :=
  (exists c, slot_get "translation-stats" st = VDict c) /\
  (exists c, slot_get "review-stats" st = VDict c).

(** A property of every slot of the mapping. *)
Definition every_slot (P : slot -> Prop) (s : Dict.t (Dict.t slot)) : Prop :=
  Forall (fun entry : string * Dict.t slot =>
            Forall (fun e : string * slot => P (snd e)) (snd entry))
    s.

Definition all_clean (s : Dict.t (Dict.t slot)) : Prop := every_slot clean s.

(** The totals as [populate_total_stats] builds them. *)
Definition totals_of (key : string) (fields : list string)
  (s : Dict.t (Dict.t slot)) : counters :=
  map (fun k => (k, field_sum key k s)) fields.

(** The sum of the fields of a counter set other than ["total"]. *)
Definition states_sum (fields : list string) (c : counters) : Z :=
  fold_right (fun k acc => Dict.get_default k 0 c + acc) 0
    (filter (fun k => negb (String.eqb k "total")) fields).

(** ["total"] equals the sum of the other fields. *)
Definition balanced (fields : list string) (c : counters) : Prop :=
  Dict.get_default "total" 0 c = states_sum fields c.

Definition slot_balanced (st : slot) : Prop :=
  match st with
  | Bucket t r => balanced trans_fields t /\ balanced review_fields r
  | Totals _ => True
  end.

Definition all_balanced (s : Dict.t (Dict.t slot)) : Prop :=
  every_slot slot_balanced s.

(** ** The records and users of the examples *)

Definition translated_record : WeblateStat :=
  {| projectSlug := "i18n"; versionSlug := "master"; localeId := "ko";
     savedState := "Translated"; wordCount := 100 |}.

Definition approved_record : WeblateStat :=
  {| projectSlug := "i18n"; versionSlug := "master"; localeId := "ko";
     savedState := "Approved"; wordCount := 20 |}.

(** A record whose state label is not one of the fields. *)
Definition fuzzy_record : WeblateStat :=
  {| projectSlug := "i18n"; versionSlug := "master"; localeId := "ko";
     savedState := "Fuzzy"; wordCount := 7 |}.

(** A record for another language. *)
Definition japanese_record : WeblateStat :=
  {| projectSlug := "i18n"; versionSlug := "master"; localeId := "ja";
     savedState := "Translated"; wordCount := 3 |}.

(** A record whose state label is the name of the derived field. *)
Definition total_record : WeblateStat :=
  {| projectSlug := "i18n"; versionSlug := "master"; localeId := "ko";
     savedState := "total"; wordCount := 5 |}.

(** A record whose project and version are the keys under which
    [populate_total_stats] stores the translation totals. *)
Definition sentinel_record : WeblateStat :=
  {| projectSlug := "__total__"; versionSlug := "translation-stats";
     localeId := "ko"; savedState := "Translated"; wordCount := 5 |}.

Definition user_1001 : User := new_User "1001" "ko".

(** [user_1001] after [translated_record] was folded into it. *)
Definition user_1001_translated : User :=
  with_stats user_1001
    [("i18n", [("master", Bucket [("Translated", 100); ("total", 100)] [])])].

(** A team file with two teams, and three users in report disorder. *)
Definition team_file : Dict.t team_info :=
  [("ko", {| info_language := "Korean";
             info_translators := [YInt 1001; YStr "1002"];
             info_reviewers := None; info_coordinators := None |});
   ("ja", {| info_language := "Japanese";
             info_translators := [YStr "tanaka"];
             info_reviewers := Some [YStr "sato"];
             info_coordinators := None |})].

(** The total row of the end-to-end scenario: as "Approved" were a review
    state only, and as the program computes it. *)
Definition review_only_total_row : list cell :=
  [CStr "1001"; CStr "ko"; CStr "-"; CStr "-";
   CInt 100; CInt 100; CInt 0; CInt 0; CInt 0;
   CInt 20; CInt 20; CInt 0].

Definition scenario_total_row : list cell :=
  [CStr "1001"; CStr "ko"; CStr "-"; CStr "-";
   CInt 120; CInt 100; CInt 0; CInt 20; CInt 0;
   CInt 20; CInt 20; CInt 0].

(** Three users in report disorder; the last one has no activity. *)
Definition report_users : list User :=
  [user_1001_translated; new_User "tanaka" "ja"; new_User "1000" "ko"].

(** ** The command line *)

(** [s.split(sep)] for a one-character separator: every occurrence splits,
    and empty pieces are kept. *)
Fixpoint split_on (sep : ascii) (s : string) : list string :=
  match s with
  | EmptyString => [EmptyString]
  | String c s' =>
      if Ascii.eqb c sep then EmptyString :: split_on sep s'
      else match split_on sep s' with
           | [] => [String c EmptyString]
           | piece :: pieces => String c piece :: pieces
           end
  end.

Definition _comma_separated_list (s : string) : list string :=
  split_on ","%char s.

(** [s.replace(old, new)] for one-character [old] and [new]. *)
Fixpoint replace_char (old new : ascii) (s : string) : string :=
  match s with
  | EmptyString => EmptyString
  | String c s' =>
      String (if Ascii.eqb c old then new else c) (replace_char old new s')
  end.

(** [[v.replace("/", "-") for v in options.target_version or []]] in
    [main]. *)
Definition normalize_versions (target_version : list string) : list string :=
  map (replace_char "/"%char "-"%char) target_version.

(** The character occurs in the string. *)
Fixpoint has_char (c : ascii) (s : string) : bool :=
  match s with
  | EmptyString => false
  | String c' s' => Ascii.eqb c' c || has_char c s'
  end.

(** ** What a batch adds to a counter *)

(** The three guards of the loop body let the record through. *)
Definition keeps (project_list version_list : list string) (language : string)
  (ws : WeblateStat) : bool :=
  (negb (truthy project_list) || contains (projectSlug ws) project_list) &&
  (negb (truthy version_list) || contains (versionSlug ws) version_list) &&
  String.eqb language (localeId ws).

(** What one record adds to counter [k] of bucket (p, v) in the counter set
    with the given field list. *)
Definition record_adds (fields project_list version_list : list string)
  (language p v k : string) (ws : WeblateStat) : Z :=
  if keeps project_list version_list language ws &&
     String.eqb (projectSlug ws) p && String.eqb (versionSlug ws) v &&
     contains (savedState ws) fields
  then (if String.eqb k (savedState ws) then wordCount ws else 0)
       + (if String.eqb k "total" then wordCount ws else 0)
  else 0.

Definition batch_adds (fields project_list version_list : list string)
  (language p v k : string) (wss : list WeblateStat) : Z :=
  fold_right
    (fun ws acc =>
       record_adds fields project_list version_list language p v k ws + acc)
    0 wss.

(** ** The rows of a user *)

(** The detail row of one bucket. *)
Definition bucket_row (self : User) (project_id version : string) (st : slot)
  : list cell :=
  [CStr (user_id self); CStr (lang self); CStr project_id; CStr version]
  ++ map (fun k => CInt (slot_field "translation-stats" k st)) trans_fields
  ++ map (fun k => CInt (slot_field "review-stats" k st)) review_fields.

(** The detail rows of all buckets, in the order of the mapping; the entries
    under ["__total__"] give none. *)
Definition detail_rows (self : User) (s : Dict.t (Dict.t slot))
  : list (list cell) :=
  flat_map
    (fun entry : string * Dict.t slot =>
       if String.eqb (fst entry) "__total__" then []
       else map (fun e : string * slot =>
                   bucket_row self (fst entry) (fst e) (snd e))
              (snd entry))
    s.

(** The row of the grand totals. *)
Definition total_row (self : User) (s : Dict.t (Dict.t slot)) : list cell :=
  [CStr (user_id self); CStr (lang self); CStr "-"; CStr "-"]
  ++ map (fun k => CInt (field_sum "translation-stats" k s)) trans_fields
  ++ map (fun k => CInt (field_sum "review-stats" k s)) review_fields.

(** The number of buckets that get a detail row. *)
Definition bucket_count (s : Dict.t (Dict.t slot)) : nat :=
  fold_right
    (fun (entry : string * Dict.t slot) n =>
       ((if String.eqb (fst entry) "__total__" then 0
         else List.length (snd entry))
        + n)%nat)
    0%nat s.

(** The mapping with the two dicts of totals stored under ["__total__"]. *)
Definition populated (s : Dict.t (Dict.t slot)) : Dict.t (Dict.t slot) :=
  set_slot "__total__" "review-stats"
    (Totals (totals_of "review-stats" review_fields s))
    (set_slot "__total__" "translation-stats"
       (Totals (totals_of "translation-stats" trans_fields s)) s).

(** All the rows of one user. *)
Definition user_rows (detail : bool) (self : User) : list (list cell) :=
  (if detail then detail_rows self (stats self) else [])
  ++ [total_row self (stats self)].

(** The serializable form of one user. *)
Definition user_object (detail : bool) (self : User) : serializable :=
  {| ser_user_id := user_id self;
     ser_lang := lang self;
     ser_stats :=
       if detail then AllStats (populated (stats self))
       else TotalStats (Dict.get_default "__total__" [] (populated (stats self)))
  |}.

(** * Properties *)

(** ** Dictionaries *)

Section DictFacts.
Context {V : Type}.
Implicit Types (d : Dict.t V) (k : string) (v : V).

Lemma get_set_same k v d : Dict.get k (Dict.set k v d) = Some v.
Proof.
  induction d as [|[k' v'] d IH]; simpl.
  - now rewrite String.eqb_refl.
  - destruct (String.eqb k' k) eqn:E; simpl.
    + now rewrite String.eqb_refl.
    + now rewrite E.
Qed.

Lemma get_set_other k k' v d :
  k <> k' -> Dict.get k' (Dict.set k v d) = Dict.get k' d.
Proof.
  intros Hne. apply String.eqb_neq in Hne.
  induction d as [|[k0 v0] d IH]; simpl.
  - now rewrite Hne.
  - destruct (String.eqb k0 k) eqn:E; simpl.
    + apply String.eqb_eq in E; subst k0. now rewrite Hne.
    + now rewrite IH.
Qed.

Lemma set_set k v v' d : Dict.set k v (Dict.set k v' d) = Dict.set k v d.
Proof.
  induction d as [|[k0 v0] d IH]; simpl.
  - now rewrite String.eqb_refl.
  - destruct (String.eqb k0 k) eqn:E; simpl.
    + now rewrite String.eqb_refl.
    + now rewrite E, IH.
Qed.

Lemma set_stored k v d : Dict.get k d = Some v -> Dict.set k v d = d.
Proof.
  induction d as [|[k0 v0] d IH]; simpl; [discriminate|].
  destruct (String.eqb k0 k) eqn:E.
  - apply String.eqb_eq in E; subst k0. now intros [= ->].
  - intros H. now rewrite IH.
Qed.

Lemma get_In k v d : Dict.get k d = Some v -> In (k, v) d.
Proof.
  induction d as [|[k0 v0] d IH]; simpl; [discriminate|].
  destruct (String.eqb k0 k) eqn:E.
  - apply String.eqb_eq in E; subst k0. intros [= ->]. now left.
  - intros H. right. now apply IH.
Qed.

Lemma Forall_set (P : string * V -> Prop) k v d :
  Forall P d -> P (k, v) -> Forall P (Dict.set k v d).
Proof.
  intros Hd Hkv. induction Hd as [|[k0 v0] d H0 Hd IH]; simpl.
  - now constructor.
  - destruct (String.eqb k0 k); constructor; auto.
Qed.

Lemma set_not_nil k v d : Dict.set k v d <> [].
Proof.
  destruct d as [|[k0 v0] d]; simpl; [discriminate|].
  destruct (String.eqb k0 k); discriminate.
Qed.

Lemma mem_get k d : Dict.mem k d = false -> Dict.get k d = None.
Proof. unfold Dict.mem. now destruct (Dict.get k d). Qed.

End DictFacts.

Lemma contains_In x l : contains x l = true <-> In x l.
Proof.
  unfold contains. rewrite existsb_exists. split.
  - intros [y [Hy E]]. apply String.eqb_eq in E. now subst.
  - intros H. exists x. split; [assumption | apply String.eqb_refl].
Qed.

Lemma contains_not_In x l : contains x l = false <-> ~ In x l.
Proof.
  rewrite <- contains_In. destruct (contains x l); split; intros; congruence.
Qed.

Lemma truthy_not_nil {A : Type} (l : list A) : truthy l = true <-> l <> [].
Proof. destruct l; simpl; split; congruence. Qed.

Lemma for_each_app {A B : Type} (body : A -> B -> result A) l1 l2 a :
  for_each body (l1 ++ l2) a = (a' <- for_each body l1 a ;; for_each body l2 a').
Proof.
  revert a. induction l1 as [|x l1 IH]; intros a; simpl; [reflexivity|].
  destruct (body a x); simpl; [apply IH | reflexivity].
Qed.

(** ** Slots of the stats mapping *)

Lemma find_slot_get_default p v s :
  find_slot p v s = Dict.get v (Dict.get_default p [] s).
Proof.
  unfold find_slot, Dict.get_default. now destruct (Dict.get p s).
Qed.

Lemma find_slot_set_same p v st s :
  find_slot p v (set_slot p v st s) = Some st.
Proof.
  unfold find_slot, set_slot. rewrite get_set_same. apply get_set_same.
Qed.

Lemma find_slot_set_other p v p' v' st s :
  p <> p' \/ v <> v' ->
  find_slot p' v' (set_slot p v st s) = find_slot p' v' s.
Proof.
  intros Hne. unfold set_slot.
  destruct (string_dec p p') as [<-|Hp].
  - destruct Hne as [Hne|Hne]; [congruence|].
    unfold find_slot at 1. rewrite get_set_same, get_set_other by assumption.
    symmetry. apply find_slot_get_default.
  - unfold find_slot. now rewrite get_set_other.
Qed.

Lemma count_record_eq self ws :
  count_record self ws =
  let p := projectSlug ws in
  let v := versionSlug ws in
  (st1 <- (if contains (savedState ws) trans_fields
           then count_into "translation-stats" (savedState ws) (wordCount ws)
                  (slot_or_new p v (stats self))
           else Ok (slot_or_new p v (stats self))) ;;
   st2 <- (if contains (savedState ws) review_fields
           then count_into "review-stats" (savedState ws) (wordCount ws) st1
           else Ok st1) ;;
   Ok (with_stats self (set_slot p v st2 (stats self)))).
Proof.
  unfold count_record, slot_or_new, set_slot. cbv zeta.
  rewrite find_slot_get_default.
  set (mp := Dict.get_default (projectSlug ws) [] (stats self)).
  destruct (Dict.mem (versionSlug ws) mp) eqn:Hmem; simpl negb; cbv iota.
  - unfold Dict.mem in Hmem. unfold Dict.getitem.
    destruct (Dict.get (versionSlug ws) mp) as [st|]; [|discriminate].
    reflexivity.
  - apply mem_get in Hmem. rewrite Hmem.
    unfold Dict.getitem. rewrite get_set_same. simpl bind at 1.
    destruct (if contains (savedState ws) trans_fields then _ else _)
      as [st1|e]; simpl; [|reflexivity].
    destruct (if contains (savedState ws) review_fields then _ else _)
      as [st2|e]; simpl; [|reflexivity].
    now rewrite set_set.
Qed.

Lemma fold_record_skip pl vl self ws :
  (pl <> [] /\ ~ In (projectSlug ws) pl) \/
  (vl <> [] /\ ~ In (versionSlug ws) vl) \/
  localeId ws <> lang self ->
  fold_record pl vl self ws = Ok self.
Proof.
  unfold fold_record. cbv zeta.
  destruct (truthy pl && negb (contains (projectSlug ws) pl)) eqn:E1;
    [reflexivity|].
  destruct (truthy vl && negb (contains (versionSlug ws) vl)) eqn:E2;
    [reflexivity|].
  destruct (String.eqb (lang self) (localeId ws)) eqn:E3; [|reflexivity].
  intros [[Hp Hn]|[[Hv Hn]|Hl]]; exfalso.
  - apply truthy_not_nil in Hp. apply contains_not_In in Hn.
    rewrite Hp, Hn in E1. discriminate.
  - apply truthy_not_nil in Hv. apply contains_not_In in Hn.
    rewrite Hv, Hn in E2. discriminate.
  - apply String.eqb_eq in E3. congruence.
Qed.

Lemma fold_record_passes pl vl self ws :
  passes_filters pl vl self ws ->
  fold_record pl vl self ws = count_record self ws.
Proof.
  intros (Hp & Hv & Hl). unfold fold_record. cbv zeta.
  replace (truthy pl && negb (contains (projectSlug ws) pl)) with false.
  2:{ destruct Hp as [->|Hp]; [reflexivity|].
      apply contains_In in Hp. rewrite Hp. symmetry. apply andb_false_r. }
  replace (truthy vl && negb (contains (versionSlug ws) vl)) with false.
  2:{ destruct Hv as [->|Hv]; [reflexivity|].
      apply contains_In in Hv. rewrite Hv. symmetry. apply andb_false_r. }
  rewrite Hl, String.eqb_refl. reflexivity.
Qed.

Lemma passes_or_filtered_out pl vl self ws :
  passes_filters pl vl self ws \/
  ((pl <> [] /\ ~ In (projectSlug ws) pl) \/
   (vl <> [] /\ ~ In (versionSlug ws) vl) \/
   localeId ws <> lang self).
Proof.
  unfold passes_filters.
  destruct pl as [|p0 pl].
  2: destruct (in_dec string_dec (projectSlug ws) (p0 :: pl)) as [Hp|Hp].
  3:{ right. left. split; [discriminate | assumption]. }
  all: (destruct vl as [|v0 vl];
        [| destruct (in_dec string_dec (versionSlug ws) (v0 :: vl)) as [Hv|Hv];
           [| right; right; left; split; [discriminate | assumption]]]).
  all: (destruct (string_dec (localeId ws) (lang self)) as [Hl|Hl];
        [left | right; right; right; assumption]).
  all: repeat split; auto.
Qed.

(** ** What folding maintains *)

Lemma buckets_only_versions p s :
  buckets_only s ->
  Forall (fun e : string * slot => is_bucket (snd e) = true)
    (Dict.get_default p [] s).
Proof.
  intros Hs. unfold Dict.get_default.
  destruct (Dict.get p s) as [vs|] eqn:E; [|constructor].
  apply get_In in E. unfold buckets_only in Hs.
  rewrite Forall_forall in Hs. exact (proj2 (Hs _ E)).
Qed.

Lemma slot_or_new_bucket p v s :
  buckets_only s -> exists t r, slot_or_new p v s = Bucket t r.
Proof.
  intros Hs. unfold slot_or_new. rewrite find_slot_get_default.
  destruct (Dict.get v (Dict.get_default p [] s)) as [st|] eqn:E.
  - apply get_In in E. pose proof (buckets_only_versions p s Hs) as Hv.
    rewrite Forall_forall in Hv. specialize (Hv _ E). simpl in Hv.
    destruct st as [t r|c]; [eauto | discriminate].
  - eauto.
Qed.

Lemma set_slot_buckets_only p v st s :
  buckets_only s -> is_bucket st = true -> buckets_only (set_slot p v st s).
Proof.
  intros Hs Hst. unfold set_slot. apply Forall_set; [exact Hs|].
  simpl. split; [apply set_not_nil|].
  apply Forall_set; [now apply buckets_only_versions | exact Hst].
Qed.

(** The counter sets of the bucket after a record was counted into it. *)
Lemma count_record_bucket self ws t r :
  slot_or_new (projectSlug ws) (versionSlug ws) (stats self) = Bucket t r ->
  count_record self ws =
  Ok (with_stats self
        (set_slot (projectSlug ws) (versionSlug ws)
           (Bucket
              (if contains (savedState ws) trans_fields
               then iadd "total" (wordCount ws)
                      (iadd (savedState ws) (wordCount ws) t)
               else t)
              (if contains (savedState ws) review_fields
               then iadd "total" (wordCount ws)
                      (iadd (savedState ws) (wordCount ws) r)
               else r))
           (stats self))).
Proof.
  intros Hslot. rewrite count_record_eq. cbv zeta. rewrite Hslot.
  destruct (contains (savedState ws) trans_fields);
    destruct (contains (savedState ws) review_fields); reflexivity.
Qed.

Lemma count_record_buckets_only self ws :
  buckets_only (stats self) ->
  exists self', count_record self ws = Ok self' /\ buckets_only (stats self').
Proof.
  intros Hs.
  destruct (slot_or_new_bucket (projectSlug ws) (versionSlug ws) _ Hs)
    as (t & r & Hslot).
  rewrite (count_record_bucket _ _ _ _ Hslot).
  eexists. split; [reflexivity|]. simpl.
  now apply set_slot_buckets_only.
Qed.

Lemma fold_record_buckets_only pl vl self ws :
  buckets_only (stats self) ->
  exists self', fold_record pl vl self ws = Ok self' /\
                buckets_only (stats self').
Proof.
  intros Hs. destruct (passes_or_filtered_out pl vl self ws) as [Ha|Hk].
  - rewrite (fold_record_passes _ _ _ _ Ha).
    now apply count_record_buckets_only.
  - rewrite (fold_record_skip _ _ _ _ Hk). eauto.
Qed.

Lemma read_buckets_only wss pl vl self :
  buckets_only (stats self) ->
  exists self', read_from_weblate_stats self wss pl vl = Ok self' /\
                buckets_only (stats self').
Proof.
  unfold read_from_weblate_stats. revert self.
  induction wss as [|ws wss IH]; intros self Hs; simpl.
  - eauto.
  - destruct (fold_record_buckets_only pl vl self ws Hs) as (s1 & -> & H1).
    simpl. now apply IH.
Qed.

Lemma folded_buckets_only self : folded self -> buckets_only (stats self).
Proof.
  induction 1 as [id l | self self' wss pl vl _ IH Hread].
  - constructor.
  - destruct (read_buckets_only wss pl vl self IH) as (s1 & E & H1).
    congruence.
Qed.

(** Identity and language never change. *)
Lemma fold_record_identity pl vl self ws self' :
  fold_record pl vl self ws = Ok self' ->
  user_id self' = user_id self /\ lang self' = lang self.
Proof.
  unfold fold_record, count_record. cbv zeta.
  repeat match goal with
         | |- context [if ?b then _ else _] => destruct b
         | |- context [bind ?c _] => destruct c; simpl
         end; intros [= <-]; auto; discriminate.
Qed.

(** ** Counters *)

Lemma get_default_iadd k k' n (c : counters) :
  Dict.get_default k 0 (iadd k' n c) =
  Dict.get_default k 0 c + (if String.eqb k k' then n else 0).
Proof.
  unfold iadd, Dict.get_default at 1.
  destruct (String.eqb k k') eqn:E.
  - apply String.eqb_eq in E; subst k'. now rewrite get_set_same.
  - apply String.eqb_neq in E.
    rewrite get_set_other by congruence.
    unfold Dict.get_default. destruct (Dict.get k c); lia.
Qed.

Lemma trans_count_slot self p v k :
  trans_count self p v k =
  match slot_or_new p v (stats self) with
  | Bucket t _ => Dict.get_default k 0 t
  | Totals _ => 0
  end.
Proof.
  unfold trans_count, slot_or_new.
  now destruct (find_slot p v (stats self)) as [[t r|c]|].
Qed.

Lemma review_count_slot self p v k :
  review_count self p v k =
  match slot_or_new p v (stats self) with
  | Bucket _ r => Dict.get_default k 0 r
  | Totals _ => 0
  end.
Proof.
  unfold review_count, slot_or_new.
  now destruct (find_slot p v (stats self)) as [[t r|c]|].
Qed.

(** ** Folding one record *)

(** C3: a record that passes the filters and whose state label is in both
    field lists (such as "Approved" or "Rejected") has its word count added
    to that state's counter and to the total of the translation-stats set,
    and to that state's counter and to the total of the review-stats set, of
    its own (project, version) bucket; no other bucket changes. *)
Theorem shared_state_counted_in_both_sets
  (self : User) (ws : WeblateStat) (pl vl : list string) :
  folded self ->
  passes_filters pl vl self ws ->
  In (savedState ws) trans_fields ->
  In (savedState ws) review_fields ->
  exists self',
    read_from_weblate_stats self [ws] pl vl = Ok self' /\
    (exists t r,
        find_slot (projectSlug ws) (versionSlug ws) (stats self')
        = Some (Bucket t r)) /\
    (forall k,
        trans_count self' (projectSlug ws) (versionSlug ws) k =
        trans_count self (projectSlug ws) (versionSlug ws) k
        + (if String.eqb k (savedState ws) then wordCount ws else 0)
        + (if String.eqb k "total" then wordCount ws else 0)) /\
    (forall k,
        review_count self' (projectSlug ws) (versionSlug ws) k =
        review_count self (projectSlug ws) (versionSlug ws) k
        + (if String.eqb k (savedState ws) then wordCount ws else 0)
        + (if String.eqb k "total" then wordCount ws else 0)) /\
    (forall p v,
        p <> projectSlug ws \/ v <> versionSlug ws ->
        find_slot p v (stats self') = find_slot p v (stats self)).
Proof.
  intros Hf Ha Ht Hr.
  apply contains_In in Ht. apply contains_In in Hr.
  destruct (slot_or_new_bucket (projectSlug ws) (versionSlug ws) _
              (folded_buckets_only _ Hf)) as (t & r & Hslot).
  unfold read_from_weblate_stats. simpl for_each.
  rewrite (fold_record_passes _ _ _ _ Ha).
  rewrite (count_record_bucket _ _ _ _ Hslot), Ht, Hr. simpl bind.
  eexists. split; [reflexivity|]. simpl stats.
  split; [|split; [|split]].
  - do 2 eexists. apply find_slot_set_same.
  - intros k. rewrite (trans_count_slot self), Hslot.
    unfold trans_count. simpl stats. rewrite find_slot_set_same.
    rewrite !get_default_iadd. lia.
  - intros k. rewrite (review_count_slot self), Hslot.
    unfold review_count. simpl stats. rewrite find_slot_set_same.
    rewrite !get_default_iadd. lia.
  - intros p v Hne. apply find_slot_set_other.
    destruct Hne; [left|right]; congruence.
Qed.

Lemma shared_state_counted_in_both_sets_witness :
  exists self',
    read_from_weblate_stats user_1001 [approved_record] [] [] = Ok self' /\
    trans_count self' "i18n" "master" "Approved" = 20 /\
    trans_count self' "i18n" "master" "total" = 20 /\
    review_count self' "i18n" "master" "Approved" = 20 /\
    review_count self' "i18n" "master" "total" = 20.
Proof.
  destruct (shared_state_counted_in_both_sets user_1001 approved_record [] [])
    as (self' & Hread & _ & Ht & Hr & _).
  - apply folded_new.
  - repeat split; auto.
  - simpl; auto.
  - simpl; auto.
  - exists self'. split; [exact Hread|].
    rewrite !Ht, !Hr. repeat split; reflexivity.
Defined.

Lemma count_record_unrecognized self ws :
  ~ In (savedState ws) trans_fields ->
  ~ In (savedState ws) review_fields ->
  count_record self ws =
  Ok (with_stats self
        (set_slot (projectSlug ws) (versionSlug ws)
           (slot_or_new (projectSlug ws) (versionSlug ws) (stats self))
           (stats self))).
Proof.
  intros Ht Hr. apply contains_not_In in Ht. apply contains_not_In in Hr.
  rewrite count_record_eq. cbv zeta. now rewrite Ht, Hr.
Qed.

Lemma find_slot_keep p v p' v' s :
  find_slot p' v' (set_slot p v (slot_or_new p v s) s) =
  match find_slot p' v' s with
  | Some st => Some st
  | None =>
      if String.eqb p p' && String.eqb v v' then Some (Bucket [] []) else None
  end.
Proof.
  destruct (String.eqb p p') eqn:Ep; [destruct (String.eqb v v') eqn:Ev|].
  - apply String.eqb_eq in Ep, Ev. subst p' v'.
    rewrite find_slot_set_same. unfold slot_or_new.
    now destruct (find_slot p v s).
  - apply String.eqb_neq in Ev. rewrite find_slot_set_other by auto.
    now destruct (find_slot p' v' s).
  - apply String.eqb_neq in Ep. rewrite find_slot_set_other by auto.
    now destruct (find_slot p' v' s).
Qed.

(** Storing back the slot that was found (or a fresh bucket) changes no
    counter and keeps every stored slot. *)
Lemma keep_slot_counts self p v :
  let self' :=
    with_stats self (set_slot p v (slot_or_new p v (stats self)) (stats self))
  in
  (forall p' v' k, trans_count self' p' v' k = trans_count self p' v' k) /\
  (forall p' v' k, review_count self' p' v' k = review_count self p' v' k) /\
  (forall p' v' st,
      find_slot p' v' (stats self) = Some st ->
      find_slot p' v' (stats self') = Some st).
Proof.
  cbv zeta. unfold trans_count, review_count. cbn [stats with_stats].
  repeat split; intros p' v'; try intros k; try intros st;
    rewrite find_slot_keep;
    destruct (find_slot p' v' (stats self)) as [[t r|c]|]; try congruence;
    destruct (String.eqb p p' && String.eqb v v'); reflexivity.
Qed.

Lemma read_unrecognized_passes self ws pl vl :
  passes_filters pl vl self ws ->
  ~ In (savedState ws) trans_fields ->
  ~ In (savedState ws) review_fields ->
  read_from_weblate_stats self [ws] pl vl =
  Ok (with_stats self
        (set_slot (projectSlug ws) (versionSlug ws)
           (slot_or_new (projectSlug ws) (versionSlug ws) (stats self))
           (stats self))).
Proof.
  intros Ha Ht Hr. unfold read_from_weblate_stats. cbn [for_each].
  rewrite (fold_record_passes _ _ _ _ Ha).
  now rewrite (count_record_unrecognized _ _ Ht Hr).
Qed.

(** C7: folding a record whose state label is in neither field list changes
    no counter: the fold succeeds, every counter of every (project, version)
    bucket reads the same before and after, and every stored slot is kept as
    it was. *)
Theorem unrecognized_state_changes_no_counter
  (self : User) (ws : WeblateStat) (pl vl : list string) :
  ~ In (savedState ws) trans_fields ->
  ~ In (savedState ws) review_fields ->
  exists self',
    read_from_weblate_stats self [ws] pl vl = Ok self' /\
    (forall p v k, trans_count self' p v k = trans_count self p v k) /\
    (forall p v k, review_count self' p v k = review_count self p v k) /\
    (forall p v st,
        find_slot p v (stats self) = Some st ->
        find_slot p v (stats self') = Some st).
Proof.
  intros Ht Hr.
  destruct (passes_or_filtered_out pl vl self ws) as [Ha|Hk].
  - rewrite (read_unrecognized_passes _ _ _ _ Ha Ht Hr).
    eexists. split; [reflexivity|].
    exact (keep_slot_counts self (projectSlug ws) (versionSlug ws)).
  - unfold read_from_weblate_stats. cbn [for_each].
    rewrite (fold_record_skip _ _ _ _ Hk). cbn [bind].
    exists self. repeat split; auto.
Qed.

Lemma unrecognized_state_changes_no_counter_witness :
  exists self',
    read_from_weblate_stats user_1001 [fuzzy_record] [] [] = Ok self' /\
    (forall p v k, trans_count self' p v k = trans_count user_1001 p v k) /\
    (forall p v k, review_count self' p v k = review_count user_1001 p v k).
Proof.
  destruct (unrecognized_state_changes_no_counter user_1001 fuzzy_record [] [])
    as (self' & Hread & Ht & Hr & _).
  - simpl. intros H.
    repeat (destruct H as [H|H]; [discriminate H|]). exact H.
  - simpl. intros H.
    repeat (destruct H as [H|H]; [discriminate H|]). exact H.
  - exists self'. auto.
Defined.

(** ** [needs_output] *)

Lemma buckets_only_needs_output self :
  buckets_only (stats self) ->
  needs_output self false = truthy (stats self).
Proof.
  intros Hs. unfold needs_output.
  replace (forallb truthy (Dict.values (stats self))) with true;
    [apply andb_true_r|].
  symmetry. unfold Dict.values. induction Hs as [|[p vs] s [Hne _] _ IH]; simpl.
  - reflexivity.
  - rewrite IH. destruct vs; [contradiction | reflexivity].
Qed.

Lemma buckets_only_has_bucket s :
  buckets_only s ->
  truthy s = true <->
  exists p v t r, find_slot p v s = Some (Bucket t r).
Proof.
  intros Hs. split.
  - destruct Hs as [|[p vs] s [Hne Hvs] _]; simpl; [discriminate|].
    intros _. simpl in Hne, Hvs.
    destruct Hvs as [|[v [t r|c]] vs Hst _]; try contradiction;
      try discriminate.
    exists p, v, t, r. unfold find_slot. simpl.
    rewrite String.eqb_refl. simpl. now rewrite String.eqb_refl.
  - intros (p & v & t & r & H). destruct s; [discriminate | reflexivity].
Qed.

Lemma set_slot_no_empty p v st s :
  no_empty_project s -> no_empty_project (set_slot p v st s).
Proof.
  intros Hs. unfold set_slot. apply Forall_set; [exact Hs|].
  simpl. apply set_not_nil.
Qed.

Lemma fold_record_no_empty pl vl self ws self' :
  no_empty_project (stats self) ->
  fold_record pl vl self ws = Ok self' ->
  no_empty_project (stats self').
Proof.
  intros Hs. destruct (passes_or_filtered_out pl vl self ws) as [Ha|Hk].
  - rewrite (fold_record_passes _ _ _ _ Ha), count_record_eq. cbv zeta.
    destruct (if contains (savedState ws) trans_fields then _ else _)
      as [st1|e]; cbn [bind]; [|discriminate].
    destruct (if contains (savedState ws) review_fields then _ else _)
      as [st2|e]; cbn [bind]; [|discriminate].
    intros [= <-]. now apply set_slot_no_empty.
  - rewrite (fold_record_skip _ _ _ _ Hk). now intros [= <-].
Qed.

Lemma read_no_empty wss pl vl self self' :
  no_empty_project (stats self) ->
  read_from_weblate_stats self wss pl vl = Ok self' ->
  no_empty_project (stats self').
Proof.
  unfold read_from_weblate_stats. revert self.
  induction wss as [|ws wss IH]; intros self Hs; simpl.
  - now intros [= <-].
  - destruct (fold_record pl vl self ws) as [s1|e] eqn:E; simpl;
      [|discriminate].
    apply IH. exact (fold_record_no_empty _ _ _ _ _ Hs E).
Qed.

Lemma populate_no_empty self self' :
  no_empty_project (stats self) ->
  populate_total_stats self = Ok self' ->
  no_empty_project (stats self').
Proof.
  intros Hs. unfold populate_total_stats.
  destruct (sum_stats (stats self)) as [[tt tr]|e]; simpl; [|discriminate].
  intros [= <-]. simpl. now repeat apply set_slot_no_empty.
Qed.

Lemma reachable_no_empty self : reachable self -> no_empty_project (stats self).
Proof.
  induction 1 as [id l | self self' wss pl vl _ IH Hread
                 | self self' _ IH Hpop].
  - constructor.
  - exact (read_no_empty _ _ _ _ _ IH Hread).
  - exact (populate_no_empty _ _ IH Hpop).
Qed.

Lemma no_empty_needs_output self :
  no_empty_project (stats self) ->
  needs_output self false = true <->
  exists p v st, find_slot p v (stats self) = Some st.
Proof.
  intros Hs. unfold needs_output.
  destruct (stats self) as [|[p vs] s] eqn:E.
  - split; [discriminate|]. intros (p & v & st & H). discriminate H.
  - split.
    + intros _. inversion Hs as [|? ? Hne _]; subst. simpl in Hne.
      destruct vs as [|[v st] vs]; [contradiction|].
      exists p, v, st. unfold find_slot. simpl.
      rewrite String.eqb_refl. simpl. now rewrite String.eqb_refl.
    + intros _. cbn [truthy andb]. unfold Dict.values.
      apply forallb_forall. intros vs' Hin. apply in_map_iff in Hin.
      destruct Hin as (e & <- & He). unfold no_empty_project in Hs.
      rewrite Forall_forall in Hs. specialize (Hs e He).
      now destruct (snd e).
Qed.

(** Where [needs_output] follows the recorded buckets:
    [needs_output(True)] is true for every user; [needs_output(False)] is
    false for a freshly constructed user; for the users built by folding
    alone it is true exactly when at least one (project, version) bucket is
    recorded; in every state reachable by folds and recomputations of the
    totals it is true exactly when the stats mapping records some entry, a
    bucket or the reserved total bucket. *)
Theorem needs_output_spec :
  (forall self, needs_output self true = true) /\
  (forall user_id language_code,
      needs_output (new_User user_id language_code) false = false) /\
  (forall self,
      folded self ->
      needs_output self false = true <->
      exists p v t r, find_slot p v (stats self) = Some (Bucket t r)) /\
  (forall self,
      reachable self ->
      needs_output self false = true <->
      exists p v st, find_slot p v (stats self) = Some st).
Proof.
  split; [reflexivity|]. split; [reflexivity|]. split.
  - intros self Hf. apply folded_buckets_only in Hf.
    rewrite (buckets_only_needs_output _ Hf).
    now apply buckets_only_has_bucket.
  - intros self Hr. now apply no_empty_needs_output, reachable_no_empty.
Qed.

Lemma user_1001_translated_folded : folded user_1001_translated.
Proof.
  apply (folded_read user_1001 user_1001_translated [translated_record] [] []).
  - apply folded_new.
  - reflexivity.
Qed.

Lemma needs_output_spec_witness :
  folded user_1001_translated /\
  (needs_output user_1001_translated false = true <->
   exists p v t r,
     find_slot p v (stats user_1001_translated) = Some (Bucket t r)).
Proof.
  split.
  - exact user_1001_translated_folded.
  - exact (proj1 (proj2 (proj2 needs_output_spec)) user_1001_translated
             user_1001_translated_folded).
Defined.

(** C8: a record that passes the filters but has an unrecognized state label
    still creates its (project, version) bucket, with two empty counter sets;
    afterwards [needs_output(False)] is true although no counter has changed
    (all of them are zero when the user was fresh). *)
Theorem unrecognized_state_still_creates_bucket
  (self : User) (ws : WeblateStat) (pl vl : list string) :
  folded self ->
  passes_filters pl vl self ws ->
  ~ In (savedState ws) trans_fields ->
  ~ In (savedState ws) review_fields ->
  find_slot (projectSlug ws) (versionSlug ws) (stats self) = None ->
  exists self',
    read_from_weblate_stats self [ws] pl vl = Ok self' /\
    find_slot (projectSlug ws) (versionSlug ws) (stats self')
      = Some (Bucket [] []) /\
    needs_output self' false = true /\
    (forall p v k, trans_count self' p v k = trans_count self p v k) /\
    (forall p v k, review_count self' p v k = review_count self p v k) /\
    (stats self = [] ->
     stats self' = [(projectSlug ws, [(versionSlug ws, Bucket [] [])])] /\
     forall p v k, trans_count self' p v k = 0 /\ review_count self' p v k = 0).
Proof.
  intros Hf Ha Ht Hr Hnone.
  pose proof (read_unrecognized_passes _ _ _ _ Ha Ht Hr) as Hread.
  destruct (keep_slot_counts self (projectSlug ws) (versionSlug ws))
    as (Htc & Hrc & _).
  revert Hread Htc Hrc. cbv zeta.
  set (self' := with_stats self _). intros Hread Htc Hrc.
  exists self'. split; [exact Hread|].
  assert (Hstats : stats self' =
                   set_slot (projectSlug ws) (versionSlug ws) (Bucket [] [])
                     (stats self)).
  { unfold self', slot_or_new. now rewrite Hnone. }
  split; [rewrite Hstats; apply find_slot_set_same|].
  split.
  { rewrite buckets_only_needs_output.
    - rewrite Hstats. unfold set_slot.
      destruct (stats self) as [|[p0 vs0] s]; simpl; [reflexivity|].
      now destruct (String.eqb p0 (projectSlug ws)).
    - apply folded_buckets_only.
      apply (folded_read self self' [ws] pl vl Hf Hread). }
  split; [exact Htc|]. split; [exact Hrc|].
  intros Hempty. split; [now rewrite Hstats, Hempty|].
  intros p v k. rewrite Htc, Hrc.
  unfold trans_count, review_count, find_slot. now rewrite Hempty.
Qed.

Lemma unrecognized_state_still_creates_bucket_witness :
  exists self',
    read_from_weblate_stats user_1001 [fuzzy_record] [] [] = Ok self' /\
    stats self' = [("i18n", [("master", Bucket [] [])])] /\
    needs_output self' false = true.
Proof.
  destruct (unrecognized_state_still_creates_bucket
              user_1001 fuzzy_record [] [])
    as (self' & Hread & _ & Hout & _ & _ & Hfresh).
  - apply folded_new.
  - repeat split; auto.
  - simpl. intros H.
    repeat (destruct H as [H|H]; [discriminate H|]). exact H.
  - simpl. intros H.
    repeat (destruct H as [H|H]; [discriminate H|]). exact H.
  - reflexivity.
  - exists self'. split; [exact Hread|]. split; [|exact Hout].
    apply Hfresh. reflexivity.
Defined.

(** ** The filters *)

Lemma not_filtered_out_passes pl vl self ws :
  ~ filtered_out pl vl self ws -> passes_filters pl vl self ws.
Proof.
  intros Hn. destruct (passes_or_filtered_out pl vl self ws) as [Ha|Hk];
    [exact Ha | contradiction].
Qed.

Lemma read_identity wss pl vl self self' :
  read_from_weblate_stats self wss pl vl = Ok self' ->
  user_id self' = user_id self /\ lang self' = lang self.
Proof.
  unfold read_from_weblate_stats. revert self.
  induction wss as [|ws wss IH]; intros self; simpl.
  - intros [= <-]. auto.
  - destruct (fold_record pl vl self ws) as [s1|e] eqn:E; simpl;
      [|discriminate].
    intros H. apply IH in H. apply fold_record_identity in E.
    destruct H, E. split; congruence.
Qed.

Lemma count_record_fresh user_id language_code ws :
  count_record (new_User user_id language_code) ws =
  Ok (with_stats (new_User user_id language_code)
        [(projectSlug ws,
          [(versionSlug ws,
            Bucket
              (if contains (savedState ws) trans_fields
               then iadd "total" (wordCount ws)
                      (iadd (savedState ws) (wordCount ws) [])
               else [])
              (if contains (savedState ws) review_fields
               then iadd "total" (wordCount ws)
                      (iadd (savedState ws) (wordCount ws) [])
               else []))])]).
Proof. now rewrite (count_record_bucket _ _ [] []). Qed.

(** ** The order of Python strings *)

Lemma ascii_compare_refl a : Ascii.compare a a = Eq.
Proof. apply N.compare_refl. Qed.

Lemma ascii_compare_lt_trans a b c :
  Ascii.compare a b = Lt -> Ascii.compare b c = Lt -> Ascii.compare a c = Lt.
Proof.
  unfold Ascii.compare. rewrite !N.compare_lt_iff. apply N.lt_trans.
Qed.

Lemma string_compare_refl s : String.compare s s = Eq.
Proof.
  induction s as [|a s IH]; simpl; [reflexivity|].
  now rewrite ascii_compare_refl.
Qed.

Lemma string_compare_lt_trans s1 s2 s3 :
  String.compare s1 s2 = Lt -> String.compare s2 s3 = Lt ->
  String.compare s1 s3 = Lt.
Proof.
  revert s2 s3.
  induction s1 as [|a s1 IH]; intros [|b s2] [|c s3]; simpl;
    try discriminate; try reflexivity.
  destruct (Ascii.compare a b) eqn:Eab; try discriminate;
    destruct (Ascii.compare b c) eqn:Ebc; try discriminate.
  - apply Ascii.compare_eq_iff in Eab, Ebc. subst b c.
    rewrite ascii_compare_refl. apply IH.
  - apply Ascii.compare_eq_iff in Eab. subst b. now rewrite Ebc.
  - apply Ascii.compare_eq_iff in Ebc. subst c. now rewrite Eab.
  - now rewrite (ascii_compare_lt_trans _ _ _ Eab Ebc).
Qed.

Lemma string_ltb_trans s1 s2 s3 :
  String.ltb s1 s2 = true -> String.ltb s2 s3 = true ->
  String.ltb s1 s3 = true.
Proof.
  unfold String.ltb. intros H1 H2.
  destruct (String.compare s1 s2) eqn:E1; try discriminate.
  destruct (String.compare s2 s3) eqn:E2; try discriminate.
  now rewrite (string_compare_lt_trans _ _ _ E1 E2).
Qed.

Lemma string_leb_trans s1 s2 s3 :
  String.leb s1 s2 = true -> String.leb s2 s3 = true ->
  String.leb s1 s3 = true.
Proof.
  unfold String.leb. intros H1 H2.
  destruct (String.compare s1 s2) eqn:E1; try discriminate.
  - apply String.compare_eq_iff in E1. now subst s2.
  - destruct (String.compare s2 s3) eqn:E2; try discriminate.
    + apply String.compare_eq_iff in E2. subst s3. now rewrite E1.
    + now rewrite (string_compare_lt_trans _ _ _ E1 E2).
Qed.

Lemma string_ltb_false_leb s1 s2 :
  String.ltb s1 s2 = false -> String.leb s2 s1 = true.
Proof.
  unfold String.ltb, String.leb. rewrite (String.compare_antisym s1 s2).
  now destruct (String.compare s2 s1).
Qed.

Lemma string_ltb_leb s1 s2 : String.ltb s1 s2 = true -> String.leb s1 s2 = true.
Proof.
  unfold String.ltb, String.leb. now destruct (String.compare s1 s2).
Qed.

(** ** The sorted list of users *)

Lemma User_lt_key_le a b : User_lt a b = true -> key_le a b.
Proof.
  unfold User_lt, key_le.
  destruct (String.eqb (lang a) (lang b)) eqn:E; simpl.
  - apply String.eqb_eq in E. intros H. right.
    split; [exact E | now apply string_ltb_leb].
  - now left.
Qed.

Lemma not_User_lt_key_le a b : User_lt a b = false -> key_le b a.
Proof.
  unfold User_lt, key_le.
  destruct (String.eqb (lang a) (lang b)) eqn:E; simpl.
  - apply String.eqb_eq in E. intros H. right.
    split; [now symmetry | now apply string_ltb_false_leb].
  - intros H. left. apply String.eqb_neq in E.
    unfold String.ltb in *. rewrite (String.compare_antisym (lang a) (lang b)) in H.
    destruct (String.compare (lang b) (lang a)) eqn:C; try discriminate.
    + apply String.compare_eq_iff in C. congruence.
    + reflexivity.
Qed.

Lemma key_le_trans a b c : key_le a b -> key_le b c -> key_le a c.
Proof.
  unfold key_le. intros [Hab|[Eab Hab]] [Hbc|[Ebc Hbc]].
  - left. now apply string_ltb_trans with (lang b).
  - left. now rewrite <- Ebc.
  - left. now rewrite Eab.
  - right. split; [congruence|]. now apply string_leb_trans with (user_id b).
Qed.

Lemma insert_perm x l : Permutation (insert x l) (x :: l).
Proof.
  induction l as [|y l IH]; simpl; [reflexivity|].
  destruct (User_lt y x); [|reflexivity].
  rewrite IH. apply perm_swap.
Qed.

Lemma sorted_perm l : Permutation (sorted l) l.
Proof.
  induction l as [|x l IH]; simpl; [constructor|].
  rewrite insert_perm. now constructor.
Qed.

Lemma insert_sorted x l :
  StronglySorted key_le l -> StronglySorted key_le (insert x l).
Proof.
  induction 1 as [|y l Hl IH Hy]; simpl.
  - repeat constructor.
  - destruct (User_lt y x) eqn:E.
    + constructor; [exact IH|].
      rewrite (insert_perm x l). constructor; [|exact Hy].
      now apply User_lt_key_le.
    + apply not_User_lt_key_le in E.
      constructor; [now constructor|].
      constructor; [exact E|].
      eapply Forall_impl; [|exact Hy].
      intros z Hz. now apply key_le_trans with y.
Qed.

Lemma sorted_sorted l : StronglySorted key_le (sorted l).
Proof.
  induction l as [|x l IH]; simpl; [constructor|].
  now apply insert_sorted.
Qed.

Lemma populate_identity self self' :
  populate_total_stats self = Ok self' ->
  user_id self' = user_id self /\ lang self' = lang self.
Proof.
  unfold populate_total_stats.
  destruct (sum_stats (stats self)) as [[tt tr]|e]; simpl; [|discriminate].
  intros [= <-]. auto.
Qed.

Lemma json_objects detail users acc objects :
  for_each
    (fun objects user =>
       r <- convert_to_serializable_data user detail ;;
       Ok (objects ++ [snd r]))
    users acc = Ok objects ->
  map (fun o => (ser_lang o, ser_user_id o)) objects =
  map (fun o => (ser_lang o, ser_user_id o)) acc ++
  map (fun u => (lang u, user_id u)) users.
Proof.
  revert acc. induction users as [|u users IH]; intros acc; simpl.
  - intros [= <-]. now rewrite app_nil_r.
  - unfold convert_to_serializable_data at 1.
    destruct (populate_total_stats u) as [u'|e] eqn:E; simpl; [|discriminate].
    intros H. apply IH in H. rewrite H, map_app, <- app_assoc. simpl.
    apply populate_identity in E. destruct E as [-> ->]. reflexivity.
Qed.

Lemma no_detail_rows self s data :
  for_each (project_rows self false) s data = Ok data.
Proof.
  induction s as [|[p vs] s IH]; simpl; [reflexivity|].
  destruct (String.eqb p "__total__"); simpl; [exact IH|].
  replace (for_each (version_rows self false p) vs data) with (Ok data);
    [exact IH|].
  symmetry. induction vs as [|[v st] vs IHvs]; simpl; auto.
Qed.

Lemma flattened_total_row self self' rows :
  convert_to_flattened_data self false = Ok (self', rows) ->
  map (firstn 2) rows = [[CStr (user_id self); CStr (lang self)]].
Proof.
  unfold convert_to_flattened_data.
  destruct (populate_total_stats self) as [u|e] eqn:E; cbn [bind];
    [|discriminate].
  rewrite no_detail_rows. cbn [bind].
  destruct (collect_total "translation-stats" trans_fields (stats u));
    cbn [bind]; [|discriminate].
  destruct (collect_total "review-stats" review_fields (stats u));
    cbn [bind]; [|discriminate].
  intros [= _ <-]. apply populate_identity in E. destruct E as [-> ->].
  reflexivity.
Qed.

Lemma csv_rows users acc rows :
  for_each
    (fun rows user =>
       r <- convert_to_flattened_data user false ;;
       Ok (rows ++ snd r))
    users acc = Ok rows ->
  map (firstn 2) rows =
  map (firstn 2) acc ++
  map (fun u => [CStr (user_id u); CStr (lang u)]) users.
Proof.
  revert acc. induction users as [|u users IH]; intros acc; cbn [for_each].
  - intros [= <-]. cbn [map]. now rewrite app_nil_r.
  - destruct (convert_to_flattened_data u false) as [[u' r]|e] eqn:E;
      cbn [bind snd]; [|discriminate].
    intros H. apply IH in H. rewrite H, map_app, <- app_assoc.
    now rewrite (flattened_total_row _ _ _ E).
Qed.

(** C9: the users handed to the CSV or JSON writer are exactly the users for
    which [needs_output(include_no_activities)] is true, each as often as in
    the input, in ascending order of (language code, user id); the JSON
    objects, and the CSV rows written without detail after the title row,
    follow that list one for one. *)
Theorem report_users_filtered_and_sorted
  (users : list User) (include_no_activities : bool) :
  Permutation (users_to_write users include_no_activities)
    (filter (fun user => needs_output user include_no_activities) users) /\
  (forall user,
      In user (users_to_write users include_no_activities) <->
      In user users /\ needs_output user include_no_activities = true) /\
  StronglySorted key_le (users_to_write users include_no_activities) /\
  (forall detail objects,
      write_stats_to_file users "json" include_no_activities detail
      = Ok (JsonFile objects) ->
      map (fun o => (ser_lang o, ser_user_id o)) objects =
      map (fun u => (lang u, user_id u))
        (users_to_write users include_no_activities)) /\
  (forall rows,
      write_stats_to_file users "csv" include_no_activities false
      = Ok (CsvFile rows) ->
      map (firstn 2) rows =
      [CStr "user_id"; CStr "lang"] ::
      map (fun u => [CStr (user_id u); CStr (lang u)])
        (users_to_write users include_no_activities)).
Proof.
  split; [apply sorted_perm|]. split; [|split; [|split]].
  - intros user. unfold users_to_write. split; intros H.
    + apply (Permutation_in _ (sorted_perm _)) in H.
      apply filter_In in H. exact H.
    + apply (Permutation_in _ (Permutation_sym (sorted_perm _))).
      apply filter_In. exact H.
  - apply sorted_sorted.
  - intros detail objects. unfold write_stats_to_file. simpl.
    unfold _write_stats_to_jsonfile.
    destruct (for_each _ (users_to_write users include_no_activities) [])
      as [objs|e] eqn:E; simpl; [|discriminate].
    intros [= <-]. now apply json_objects in E.
  - intros rows. unfold write_stats_to_file. simpl.
    unfold _write_stats_to_csvfile.
    destruct (for_each _ (users_to_write users include_no_activities)
                [get_flattened_data_title])
      as [rs|e] eqn:E; simpl; [|discriminate].
    intros [= <-]. now apply csv_rows in E.
Qed.

Lemma report_users_filtered_and_sorted_witness :
  exists rows,
    write_stats_to_file report_users "csv" true false = Ok (CsvFile rows) /\
    map (firstn 2) rows =
    [[CStr "user_id"; CStr "lang"];
     [CStr "tanaka"; CStr "ja"];
     [CStr "1000"; CStr "ko"];
     [CStr "1001"; CStr "ko"]].
Proof.
  eexists. split; [reflexivity|].
  exact (proj2 (proj2 (proj2 (proj2
           (report_users_filtered_and_sorted report_users true)))) _ eq_refl).
Defined.

(** ** The team registry *)

Lemma filter_none {A : Type} (f : A -> bool) l :
  (forall x, In x l -> f x = false) -> filter f l = [].
Proof.
  induction l as [|x l IH]; intros H; simpl; [reflexivity|].
  rewrite (H x (or_introl eq_refl)). apply IH.
  intros y Hy. apply H. now right.
Qed.

Lemma mem_keys {V : Type} k (d : Dict.t V) :
  Dict.mem k d = true <-> In k (Dict.keys d).
Proof.
  unfold Dict.mem, Dict.keys.
  induction d as [|[k0 v0] d IH]; simpl; [split; [discriminate | tauto]|].
  destruct (String.eqb k0 k) eqn:E.
  - apply String.eqb_eq in E. split; auto.
  - apply String.eqb_neq in E. rewrite IH. split; [auto|].
    intros [H|H]; [contradiction | exact H].
Qed.

Lemma NoDup_keys_filter {V : Type} (f : string * V -> bool) (d : Dict.t V) :
  NoDup (Dict.keys d) ->
  NoDup (map (fun x : string * V => fst x) (filter f d)).
Proof.
  unfold Dict.keys. induction d as [|e d IH]; simpl; intros Hnd;
    [constructor|].
  inversion Hnd as [|k ks Hk Hks]; subst.
  destruct (f e); [|now apply IH].
  simpl. constructor; [|now apply IH].
  intros Hin. apply Hk. apply in_map_iff in Hin.
  destruct Hin as (e' & He & Hf). apply filter_In in Hf.
  apply in_map_iff. exists e'. tauto.
Qed.

Lemma load_all_found content lang_list :
  (forall c, In c lang_list -> Dict.mem c content = true) ->
  load_from_language_team_yaml content lang_list =
  Ok (map (fun entry : string * team_info =>
             new_LanguageTeam (fst entry) (snd entry))
        (filter (fun entry : string * team_info =>
                   negb (truthy lang_list) || contains (fst entry) lang_list)
           content)).
Proof.
  intros Hall. unfold load_from_language_team_yaml.
  rewrite (filter_none _ lang_list).
  - now destruct (truthy lang_list).
  - intros c Hc. now rewrite (Hall c Hc).
Qed.

(** C10: loading the team file exits with status 1 as soon as the language
    filter names a code that the file lacks.  Otherwise a non-empty filter
    yields one [LanguageTeam] per entry of the file whose code is in the
    filter, in file order, so that the codes returned are exactly the codes
    of the filter; and an empty filter yields one per entry of the file. *)
Theorem load_from_language_team_yaml_spec
  (content : Dict.t team_info) (lang_list : list string) :
  ((exists c, In c lang_list /\ Dict.mem c content = false) ->
   load_from_language_team_yaml content lang_list = Raise (SystemExit 1)) /\
  ((forall c, In c lang_list -> Dict.mem c content = true) ->
   lang_list <> [] ->
   exists teams,
     load_from_language_team_yaml content lang_list = Ok teams /\
     teams = map (fun entry => new_LanguageTeam (fst entry) (snd entry))
               (filter (fun entry => contains (fst entry) lang_list) content) /\
     (forall c, In c (map language_code teams) <-> In c lang_list) /\
     (NoDup (Dict.keys content) -> NoDup (map language_code teams))) /\
  load_from_language_team_yaml content [] =
  Ok (map (fun entry => new_LanguageTeam (fst entry) (snd entry)) content).
Proof.
  split; [|split].
  - intros (c & Hc & Hmem). unfold load_from_language_team_yaml.
    assert (Hin : In c (filter (fun lang_code =>
                                  negb (Dict.mem lang_code content))
                          lang_list)).
    { apply filter_In. split; [exact Hc | now rewrite Hmem]. }
    destruct lang_list as [|c0 l]; [contradiction|].
    cbn [truthy].
    destruct (filter _ (c0 :: l)); [contradiction | reflexivity].
  - intros Hall Hne. rewrite (load_all_found _ _ Hall).
    eexists. split; [reflexivity|].
    assert (Hfilter :
              filter (fun entry : string * team_info =>
                        negb (truthy lang_list) || contains (fst entry) lang_list)
                content =
              filter (fun entry => contains (fst entry) lang_list) content).
    { apply filter_ext. intros e.
      destruct lang_list; [contradiction | reflexivity]. }
    rewrite Hfilter. split; [reflexivity|].
    rewrite map_map. cbn [language_code new_LanguageTeam].
    split.
    + intros c. rewrite in_map_iff. split.
      * intros ([k info] & <- & Hk). apply filter_In in Hk.
        now apply contains_In.
      * intros Hc. pose proof (Hall c Hc) as Hm. apply mem_keys in Hm.
        unfold Dict.keys in Hm. apply in_map_iff in Hm.
        destruct Hm as ([k info] & Hk & Hin). simpl in Hk. subst k.
        exists (c, info). split; [reflexivity|].
        apply filter_In. split; [exact Hin | now apply contains_In].
    + apply NoDup_keys_filter.
  - unfold load_from_language_team_yaml. simpl.
    do 2 f_equal. induction content as [|e l IH]; simpl; congruence.
Qed.

(** ** [populate_total_stats] as sums *)

Lemma dsum_set {V : Type} (f : V -> Z) k v (d : Dict.t V) :
  dsum f (Dict.set k v d) =
  dsum f d - match Dict.get k d with Some o => f o | None => 0 end + f v.
Proof.
  unfold dsum. induction d as [|[k0 v0] d IH]; simpl.
  - lia.
  - destruct (String.eqb k0 k); simpl; [lia | rewrite IH; lia].
Qed.

Lemma field_sum_set_slot key k p v st s :
  field_sum key k (set_slot p v st s) =
  field_sum key k s
  - match find_slot p v s with
    | Some o => slot_field key k o
    | None => 0
    end
  + slot_field key k st.
Proof.
  unfold field_sum, set_slot, find_slot, Dict.get_default.
  rewrite dsum_set, dsum_set.
  destruct (Dict.get p s) as [vs|]; simpl; lia.
Qed.

Lemma accumulate_trans c (f : string -> Z) :
  accumulate trans_fields (VDict c) (map (fun k => (k, f k)) trans_fields) =
  Ok (map (fun k => (k, f k + Dict.get_default k 0 c)) trans_fields).
Proof. reflexivity. Qed.

Lemma accumulate_review c (f : string -> Z) :
  accumulate review_fields (VDict c) (map (fun k => (k, f k)) review_fields) =
  Ok (map (fun k => (k, f k + Dict.get_default k 0 c)) review_fields).
Proof. reflexivity. Qed.

Lemma add_slot_clean (ft fr : string -> Z) v st :
  clean st ->
  add_slot (map (fun k => (k, ft k)) trans_fields,
            map (fun k => (k, fr k)) review_fields) (v, st) =
  Ok (map (fun k => (k, ft k + slot_field "translation-stats" k st))
        trans_fields,
      map (fun k => (k, fr k + slot_field "review-stats" k st))
        review_fields).
Proof.
  intros [[ct Ht] [cr Hr]]. unfold add_slot, slot_field.
  rewrite Ht, Hr, accumulate_trans. cbn [bind].
  now rewrite accumulate_review.
Qed.

Lemma counters_ext (fields : list string) (f g : string -> Z) :
  (forall k, f k = g k) ->
  map (fun k => (k, f k)) fields = map (fun k => (k, g k)) fields.
Proof. intros H. apply map_ext. intros k. now rewrite H. Qed.

Lemma versions_clean (ft fr : string -> Z) vs :
  Forall (fun e : string * slot => clean (snd e)) vs ->
  for_each add_slot vs
    (map (fun k => (k, ft k)) trans_fields,
     map (fun k => (k, fr k)) review_fields) =
  Ok (map (fun k => (k, ft k + dsum (slot_field "translation-stats" k) vs))
        trans_fields,
      map (fun k => (k, fr k + dsum (slot_field "review-stats" k) vs))
        review_fields).
Proof.
  intros Hvs. revert ft fr.
  induction Hvs as [|[v st] vs Hst _ IH]; intros ft fr.
  - cbn [for_each]. f_equal. f_equal; apply counters_ext; intros k;
      unfold dsum; simpl; lia.
  - cbn [for_each]. simpl in Hst. rewrite (add_slot_clean _ _ _ _ Hst).
    cbn [bind]. rewrite IH. f_equal.
    f_equal; apply counters_ext; intros k; unfold dsum; simpl; lia.
Qed.

Lemma projects_clean (ft fr : string -> Z) s :
  all_clean s ->
  for_each
    (fun totals (entry : string * Dict.t slot) =>
       let '(project_id, versions) := entry in
       for_each add_slot versions totals)
    s
    (map (fun k => (k, ft k)) trans_fields,
     map (fun k => (k, fr k)) review_fields) =
  Ok (map (fun k => (k, ft k + field_sum "translation-stats" k s))
        trans_fields,
      map (fun k => (k, fr k + field_sum "review-stats" k s))
        review_fields).
Proof.
  intros Hs. revert ft fr.
  induction Hs as [|[p vs] s Hvs _ IH]; intros ft fr.
  - cbn [for_each]. f_equal. f_equal; apply counters_ext; intros k;
      unfold field_sum, dsum; simpl; lia.
  - cbn [for_each]. simpl in Hvs. rewrite (versions_clean _ _ _ Hvs).
    cbn [bind]. rewrite IH. f_equal.
    f_equal; apply counters_ext; intros k; unfold field_sum, dsum; simpl; lia.
Qed.

Lemma sum_stats_clean s :
  all_clean s ->
  sum_stats s =
  Ok (totals_of "translation-stats" trans_fields s,
      totals_of "review-stats" review_fields s).
Proof.
  intros Hs. unfold sum_stats.
  change (zero_counters trans_fields)
    with (map (fun k => (k, (fun _ : string => 0) k)) trans_fields).
  change (zero_counters review_fields)
    with (map (fun k => (k, (fun _ : string => 0) k)) review_fields).
  rewrite (projects_clean _ _ _ Hs). reflexivity.
Qed.

Lemma populate_clean self :
  all_clean (stats self) ->
  populate_total_stats self =
  Ok (with_stats self
        (set_slot "__total__" "review-stats"
           (Totals (totals_of "review-stats" review_fields (stats self)))
           (set_slot "__total__" "translation-stats"
              (Totals (totals_of "translation-stats" trans_fields
                         (stats self)))
              (stats self)))).
Proof.
  intros Hs. unfold populate_total_stats.
  now rewrite (sum_stats_clean _ Hs).
Qed.

Lemma every_slot_versions (P : slot -> Prop) p s :
  every_slot P s ->
  Forall (fun e : string * slot => P (snd e)) (Dict.get_default p [] s).
Proof.
  intros Hs. unfold Dict.get_default.
  destruct (Dict.get p s) as [vs|] eqn:E; [|constructor].
  apply get_In in E. unfold every_slot in Hs.
  rewrite Forall_forall in Hs. exact (Hs _ E).
Qed.

Lemma set_slot_every (P : slot -> Prop) p v st s :
  every_slot P s -> P st -> every_slot P (set_slot p v st s).
Proof.
  intros Hs Hst. unfold set_slot. apply Forall_set; [exact Hs|].
  simpl. apply Forall_set; [now apply every_slot_versions | exact Hst].
Qed.

Lemma find_slot_every (P : slot -> Prop) p v st s :
  every_slot P s -> find_slot p v s = Some st -> P st.
Proof.
  intros Hs. rewrite find_slot_get_default. intros E. apply get_In in E.
  pose proof (every_slot_versions P p s Hs) as Hv.
  rewrite Forall_forall in Hv. exact (Hv _ E).
Qed.

Lemma buckets_only_all_clean s : buckets_only s -> all_clean s.
Proof.
  unfold buckets_only, all_clean, every_slot. intros Hs.
  eapply Forall_impl; [|exact Hs]. intros [p vs] [_ Hvs]. simpl in *.
  eapply Forall_impl; [|exact Hvs]. intros [v [t r|c]]; simpl;
    [|discriminate].
  intros _. split; eexists; reflexivity.
Qed.

Lemma totals_clean key s :
  clean (Totals (totals_of key trans_fields s)) /\
  clean (Totals (totals_of key review_fields s)).
Proof. repeat split; eexists; reflexivity. Qed.

Lemma slot_field_totals key k c :
  key = "translation-stats" \/ key = "review-stats" ->
  clean (Totals c) ->
  slot_field key k (Totals c) = 0.
Proof.
  intros Hkey [[ct Ht] [cr Hr]]. unfold slot_field.
  simpl in Ht, Hr |- *.
  destruct Hkey as [-> | ->].
  - destruct (Dict.get "translation-stats" c); [discriminate | reflexivity].
  - destruct (Dict.get "review-stats" c); [discriminate | reflexivity].
Qed.

Lemma set_slot_stored p v st s :
  find_slot p v s = Some st -> set_slot p v st s = s.
Proof.
  unfold find_slot, set_slot, Dict.get_default.
  destruct (Dict.get p s) as [vs|] eqn:E; [|discriminate].
  intros Hv. rewrite (set_stored _ _ _ Hv). now apply set_stored.
Qed.

(** Storing the two dicts of totals leaves every field sum as it was,
    unless a bucket sat under one of the two reserved keys. *)
Lemma field_sum_populated key k tt tr s :
  key = "translation-stats" \/ key = "review-stats" ->
  all_clean s ->
  clean (Totals tt) -> clean (Totals tr) ->
  (forall t r,
      find_slot "__total__" "translation-stats" s <> Some (Bucket t r)) ->
  (forall t r, find_slot "__total__" "review-stats" s <> Some (Bucket t r)) ->
  field_sum key k
    (set_slot "__total__" "review-stats" (Totals tr)
       (set_slot "__total__" "translation-stats" (Totals tt) s)) =
  field_sum key k s.
Proof.
  intros Hkey Hs Htt Htr Hnt Hnr.
  rewrite !field_sum_set_slot.
  rewrite find_slot_set_other by (right; discriminate).
  rewrite !(slot_field_totals key k _ Hkey) by assumption.
  assert (Hold : forall v,
             (forall t r, find_slot "__total__" v s <> Some (Bucket t r)) ->
             match find_slot "__total__" v s with
             | Some o => slot_field key k o
             | None => 0
             end = 0).
  { intros v Hv. destruct (find_slot "__total__" v s) as [[t r|c]|] eqn:E.
    - now destruct (Hv t r).
    - apply (slot_field_totals key k c Hkey).
      exact (find_slot_every clean _ _ _ _ Hs E).
    - reflexivity. }
  rewrite (Hold _ Hnt), (Hold _ Hnr). lia.
Qed.

(** Away from the two reserved keys the totals are recomputed to the same
    values, and the stats mapping is left as the first call made it. *)
Lemma populate_twice self :
  all_clean (stats self) ->
  (forall t r,
      find_slot "__total__" "translation-stats" (stats self)
      <> Some (Bucket t r)) ->
  (forall t r,
      find_slot "__total__" "review-stats" (stats self)
      <> Some (Bucket t r)) ->
  exists self1,
    populate_total_stats self = Ok self1 /\
    populate_total_stats self1 = Ok self1.
Proof.
  intros Hs Hnt Hnr.
  rewrite (populate_clean _ Hs). eexists. split; [reflexivity|].
  set (tt := totals_of "translation-stats" trans_fields (stats self)).
  set (tr := totals_of "review-stats" review_fields (stats self)).
  set (s1 := set_slot "__total__" "review-stats" (Totals tr)
               (set_slot "__total__" "translation-stats" (Totals tt)
                  (stats self))).
  assert (Htt : clean (Totals tt)) by apply totals_clean.
  assert (Htr : clean (Totals tr)) by apply totals_clean.
  assert (Hs1 : all_clean s1).
  { unfold s1. repeat apply set_slot_every; assumption. }
  rewrite populate_clean by exact Hs1. simpl stats.
  assert (Ett : totals_of "translation-stats" trans_fields s1 = tt).
  { apply counters_ext. intros k. apply field_sum_populated; auto. }
  assert (Etr : totals_of "review-stats" review_fields s1 = tr).
  { apply counters_ext. intros k. apply field_sum_populated; auto. }
  rewrite Ett, Etr.
  assert (Ft : find_slot "__total__" "translation-stats" s1 = Some (Totals tt)).
  { unfold s1. rewrite find_slot_set_other by (right; discriminate).
    apply find_slot_set_same. }
  assert (Fr : find_slot "__total__" "review-stats" s1 = Some (Totals tr)).
  { unfold s1. apply find_slot_set_same. }
  rewrite (set_slot_stored _ _ _ _ Ft), (set_slot_stored _ _ _ _ Fr).
  reflexivity.
Qed.

(** For the users the program builds, unless a record was folded under one
    of the two reserved keys. *)
Lemma populate_twice_folded self :
  folded self ->
  find_slot "__total__" "translation-stats" (stats self) = None ->
  find_slot "__total__" "review-stats" (stats self) = None ->
  exists self1,
    populate_total_stats self = Ok self1 /\
    populate_total_stats self1 = Ok self1.
Proof.
  intros Hf Ht Hr. apply populate_twice.
  - now apply buckets_only_all_clean, folded_buckets_only.
  - intros t r. rewrite Ht. discriminate.
  - intros t r. rewrite Hr. discriminate.
Qed.

(** ** The derived field ["total"] *)

Lemma iadd_balanced fields state n c :
  fields = trans_fields \/ fields = review_fields ->
  In state fields -> state <> "total" ->
  balanced fields c ->
  balanced fields (iadd "total" n (iadd state n c)).
Proof.
  unfold balanced. intros [-> | ->] Hin Hne Hb; simpl in Hin;
    unfold states_sum in *; simpl in Hb |- *;
    rewrite !get_default_iadd;
    repeat (destruct Hin as [<-|Hin]; [try congruence; simpl; lia|]);
    contradiction.
Qed.

Lemma count_record_balanced self ws :
  buckets_only (stats self) ->
  all_balanced (stats self) ->
  savedState ws <> "total" ->
  exists self',
    count_record self ws = Ok self' /\
    buckets_only (stats self') /\ all_balanced (stats self').
Proof.
  intros Hb Hs Hne.
  destruct (slot_or_new_bucket (projectSlug ws) (versionSlug ws) _ Hb)
    as (t & r & Hslot).
  assert (Hold : slot_balanced (Bucket t r)).
  { unfold slot_or_new in Hslot.
    destruct (find_slot (projectSlug ws) (versionSlug ws) (stats self))
      as [st|] eqn:E.
    - subst st. exact (find_slot_every _ _ _ _ _ Hs E).
    - injection Hslot as <- <-. split; reflexivity. }
  rewrite (count_record_bucket _ _ _ _ Hslot).
  eexists. split; [reflexivity|]. cbn [stats with_stats]. split.
  - now apply set_slot_buckets_only.
  - apply set_slot_every; [exact Hs|]. destruct Hold as [Ht Hr].
    destruct (contains (savedState ws) trans_fields) eqn:Et;
      destruct (contains (savedState ws) review_fields) eqn:Er;
      try apply contains_In in Et; try apply contains_In in Er;
      split; try assumption; apply iadd_balanced; auto.
Qed.

(** As long as no record is labelled ["total"], every bucket keeps its
    total equal to the sum of its other fields. *)
Lemma read_balanced wss pl vl self :
  buckets_only (stats self) ->
  all_balanced (stats self) ->
  Forall (fun ws => savedState ws <> "total") wss ->
  exists self',
    read_from_weblate_stats self wss pl vl = Ok self' /\
    buckets_only (stats self') /\ all_balanced (stats self').
Proof.
  unfold read_from_weblate_stats. intros Hb Hs Hwss. revert self Hb Hs.
  induction Hwss as [|ws wss Hne _ IH]; intros self Hb Hs; simpl.
  - eauto.
  - destruct (passes_or_filtered_out pl vl self ws) as [Ha|Hk].
    + rewrite (fold_record_passes _ _ _ _ Ha).
      destruct (count_record_balanced self ws Hb Hs Hne)
        as (s1 & -> & Hb1 & Hs1).
      simpl. now apply IH.
    + rewrite (fold_record_skip _ _ _ _ Hk). simpl. now apply IH.
Qed.

Lemma slot_field_balanced key fields st :
  (key = "translation-stats" /\ fields = trans_fields) \/
  (key = "review-stats" /\ fields = review_fields) ->
  clean st -> slot_balanced st ->
  slot_field key "total" st =
  fold_right (fun k acc => slot_field key k st + acc) 0
    (filter (fun k => negb (String.eqb k "total")) fields).
Proof.
  intros Hkey Hc Hb. destruct st as [t r|c].
  - destruct Hb as [Ht Hr]. unfold balanced, states_sum in Ht, Hr.
    destruct Hkey as [[-> ->]|[-> ->]]; unfold slot_field; simpl;
      simpl in Ht, Hr; lia.
  - assert (H0 : forall k, slot_field key k (Totals c) = 0).
    { intros k. apply slot_field_totals; [|exact Hc].
      destruct Hkey as [[-> _]|[-> _]]; auto. }
    rewrite H0. destruct Hkey as [[_ ->]|[_ ->]]; simpl; rewrite !H0; lia.
Qed.

Lemma field_sum_balanced key fields s :
  (key = "translation-stats" /\ fields = trans_fields) \/
  (key = "review-stats" /\ fields = review_fields) ->
  all_clean s -> all_balanced s ->
  field_sum key "total" s =
  fold_right (fun k acc => field_sum key k s + acc) 0
    (filter (fun k => negb (String.eqb k "total")) fields).
Proof.
  intros Hkey Hc Hb. unfold field_sum.
  assert (Hvs : forall vs,
             Forall (fun e : string * slot => clean (snd e)) vs ->
             Forall (fun e : string * slot => slot_balanced (snd e)) vs ->
             dsum (slot_field key "total") vs =
             fold_right (fun k acc => dsum (slot_field key k) vs + acc) 0
               (filter (fun k => negb (String.eqb k "total")) fields)).
  { induction vs as [|[v st] vs IH]; intros Hcv Hbv.
    - destruct Hkey as [[_ ->]|[_ ->]]; reflexivity.
    - inversion Hcv as [|? ? Hc1 Hc2]; inversion Hbv as [|? ? Hb1 Hb2]; subst.
      specialize (IH Hc2 Hb2). simpl in Hc1, Hb1.
      pose proof (slot_field_balanced key fields st Hkey Hc1 Hb1) as Hst.
      unfold dsum in *. simpl fold_right at 1.
      destruct Hkey as [[_ ->]|[_ ->]]; simpl in IH, Hst |- *; lia. }
  induction s as [|[p vs] s IH].
  - destruct Hkey as [[_ ->]|[_ ->]]; reflexivity.
  - inversion Hc as [|? ? Hc1 Hc2]; inversion Hb as [|? ? Hb1 Hb2]; subst.
    specialize (IH Hc2 Hb2). simpl in Hc1, Hb1.
    specialize (Hvs vs Hc1 Hb1).
    unfold dsum in *. simpl fold_right at 1.
    destruct Hkey as [[_ ->]|[_ ->]]; simpl in IH, Hvs |- *; lia.
Qed.

(** ... and so does the total bucket that [populate_total_stats] stores. *)
Lemma populate_balanced self :
  all_clean (stats self) -> all_balanced (stats self) ->
  exists self',
    populate_total_stats self = Ok self' /\
    find_slot "__total__" "translation-stats" (stats self')
      = Some (Totals (totals_of "translation-stats" trans_fields (stats self)))
    /\
    find_slot "__total__" "review-stats" (stats self')
      = Some (Totals (totals_of "review-stats" review_fields (stats self))) /\
    balanced trans_fields
      (totals_of "translation-stats" trans_fields (stats self)) /\
    balanced review_fields
      (totals_of "review-stats" review_fields (stats self)).
Proof.
  intros Hc Hb. rewrite (populate_clean _ Hc).
  eexists. split; [reflexivity|]. simpl stats. split; [|split; [|split]].
  - rewrite find_slot_set_other by (right; discriminate).
    apply find_slot_set_same.
  - apply find_slot_set_same.
  - pose proof (field_sum_balanced "translation-stats" trans_fields
                  (stats self) (or_introl (conj eq_refl eq_refl)) Hc Hb) as H.
    unfold balanced, states_sum. simpl in H |- *. exact H.
  - pose proof (field_sum_balanced "review-stats" review_fields
                  (stats self) (or_intror (conj eq_refl eq_refl)) Hc Hb) as H.
    unfold balanced, states_sum. simpl in H |- *. exact H.
Qed.

(** C2: in every counter set "total" is meant to be the sum of the other
    fields.  A record whose state label is "total" breaks it: the label is
    found in both field lists, so the word count 5 is added to "total" twice
    and to no other field; the bucket and the recomputed total bucket then
    read total = 10 against a sum of 0 in both counter sets.  For every
    other label the invariant holds, see [read_balanced] and
    [populate_balanced]. *)
Theorem total_label_counted_twice :
  exists self self',
    read_from_weblate_stats user_1001 [total_record] [] [] = Ok self /\
    trans_count self "i18n" "master" "total" = 10 /\
    states_sum trans_fields
      (match find_slot "i18n" "master" (stats self) with
       | Some (Bucket t _) => t
       | _ => []
       end) = 0 /\
    review_count self "i18n" "master" "total" = 10 /\
    states_sum review_fields
      (match find_slot "i18n" "master" (stats self) with
       | Some (Bucket _ r) => r
       | _ => []
       end) = 0 /\
    populate_total_stats self = Ok self' /\
    find_slot "__total__" "translation-stats" (stats self') =
    Some (Totals [("total", 10); ("Translated", 0); ("NeedReview", 0);
                  ("Approved", 0); ("Rejected", 0)]) /\
    find_slot "__total__" "review-stats" (stats self') =
    Some (Totals [("total", 10); ("Approved", 0); ("Rejected", 0)]).
Proof.
  do 2 eexists. split; [reflexivity|].
  repeat split; reflexivity.
Qed.

(** C4: [populate_total_stats] is meant to give the same totals however
    often it is called.  After a record of project "__total__" and version
    "translation-stats" was folded, the first call counts its bucket
    (Translated = 5) and then stores the totals over that very bucket, so the
    second call finds nothing to count and stores Translated = 0: the two
    states differ.  Away from the two reserved keys the second call changes
    nothing, see [populate_twice] and [populate_twice_folded]. *)
Theorem populate_twice_differs_under_reserved_keys :
  exists self self1 self2,
    read_from_weblate_stats user_1001 [sentinel_record] [] [] = Ok self /\
    populate_total_stats self = Ok self1 /\
    populate_total_stats self1 = Ok self2 /\
    total_count self1 "translation-stats" "Translated" = Some 5 /\
    total_count self1 "translation-stats" "total" = Some 5 /\
    total_count self2 "translation-stats" "Translated" = Some 0 /\
    total_count self2 "translation-stats" "total" = Some 0 /\
    self2 <> self1.
Proof.
  do 3 eexists. split; [reflexivity|]. split; [reflexivity|].
  split; [reflexivity|]. repeat split; try reflexivity.
  discriminate.
Qed.

(** ** The end-to-end scenario *)

(** C1 as stated fails: with the records (Translated, 100) and
    (Approved, 20) the total bucket does not read
    {Translated:100, total:100, NeedReview:0, Approved:0, Rejected:0} and the
    row is not 1001,ko,-,-,100,100,0,0,0,20,20,0. *)
Lemma review_only_totals_refuted :
  ~ (exists self self' out,
        read_from_weblate_stats user_1001
          [translated_record; approved_record] [] [] = Ok self /\
        populate_total_stats self = Ok self' /\
        total_count self' "translation-stats" "Translated" = Some 100 /\
        total_count self' "translation-stats" "total" = Some 100 /\
        total_count self' "translation-stats" "NeedReview" = Some 0 /\
        total_count self' "translation-stats" "Approved" = Some 0 /\
        total_count self' "translation-stats" "Rejected" = Some 0 /\
        total_count self' "review-stats" "Approved" = Some 20 /\
        total_count self' "review-stats" "total" = Some 20 /\
        total_count self' "review-stats" "Rejected" = Some 0 /\
        convert_to_flattened_data self false = Ok out /\
        snd out = [review_only_total_row]).
Proof.
  intros (self & self' & out & Hread & Hpop & _ & Htotal & _).
  vm_compute in Hread. injection Hread as <-.
  vm_compute in Hpop. injection Hpop as <-.
  vm_compute in Htotal. discriminate Htotal.
Qed.

(** C1, amended: "Approved" is a field of both counter sets, so the second
    record counts in both.  After [populate_total_stats] the total bucket has
    translation-stats {Translated:100, total:120, NeedReview:0, Approved:20,
    Rejected:0} and review-stats {Approved:20, total:20, Rejected:0}, and the
    conversion without detail yields exactly the one row
    1001,ko,-,-,120,100,0,20,0,20,20,0. *)
Theorem end_to_end_scenario :
  exists self self' out,
    read_from_weblate_stats user_1001
      [translated_record; approved_record] [] [] = Ok self /\
    populate_total_stats self = Ok self' /\
    total_count self' "translation-stats" "Translated" = Some 100 /\
    total_count self' "translation-stats" "total" = Some 120 /\
    total_count self' "translation-stats" "NeedReview" = Some 0 /\
    total_count self' "translation-stats" "Approved" = Some 20 /\
    total_count self' "translation-stats" "Rejected" = Some 0 /\
    total_count self' "review-stats" "Approved" = Some 20 /\
    total_count self' "review-stats" "total" = Some 20 /\
    total_count self' "review-stats" "Rejected" = Some 0 /\
    convert_to_flattened_data self false = Ok out /\
    snd out = [scenario_total_row].
Proof.
  do 3 eexists. split; [reflexivity|]. split; [reflexivity|].
  repeat split; reflexivity.
Qed.

Lemma load_from_language_team_yaml_spec_witness :
  load_from_language_team_yaml team_file ["ko"; "fr"] = Raise (SystemExit 1) /\
  exists teams,
    load_from_language_team_yaml team_file ["ja"] = Ok teams /\
    map language_code teams = ["ja"].
Proof.
  split.
  - apply (proj1 (load_from_language_team_yaml_spec team_file ["ko"; "fr"])).
    exists "fr". split; [simpl; auto | reflexivity].
  - destruct (proj1 (proj2 (load_from_language_team_yaml_spec team_file ["ja"])))
      as (teams & Hload & Hteams & _).
    + intros c [<-|[]]. reflexivity.
    + discriminate.
    + exists teams. split; [exact Hload|]. rewrite Hteams. reflexivity.
Defined.

(** The users of the example team file: unquoted numeric ids come out as
    strings. *)
Example team_file_users :
  exists teams,
    load_from_language_team_yaml team_file [] = Ok teams /\
    team_users teams =
    [new_User "1001" "ko"; new_User "1002" "ko"; new_User "tanaka" "ja"].
Proof. eexists. split; reflexivity. Qed.

(** * Further properties of the aggregator *)

(** ** Batches *)

Lemma fold_record_keeps pl vl self ws :
  fold_record pl vl self ws =
  if keeps pl vl (lang self) ws then count_record self ws else Ok self.
Proof.
  unfold fold_record, keeps. cbv zeta.
  destruct (truthy pl); destruct (contains (projectSlug ws) pl);
    destruct (truthy vl); destruct (contains (versionSlug ws) vl);
    destruct (String.eqb (lang self) (localeId ws)); reflexivity.
Qed.

Lemma fold_record_lang pl vl self ws self' :
  fold_record pl vl self ws = Ok self' -> lang self' = lang self.
Proof. intros H. exact (proj2 (fold_record_identity _ _ _ _ _ H)). Qed.

(** X1: folding a batch made of two parts is folding the first part and then
    the second into the result; an exception in the first part ends the
    fold. *)
Theorem read_batches_compose
  (self : User) (first second : list WeblateStat) (pl vl : list string) :
  read_from_weblate_stats self (first ++ second) pl vl =
  (self' <- read_from_weblate_stats self first pl vl ;;
   read_from_weblate_stats self' second pl vl).
Proof.
  unfold read_from_weblate_stats. revert self.
  induction first as [|ws first IH]; intros self; cbn [app for_each bind].
  - reflexivity.
  - destruct (fold_record pl vl self ws) as [s1|e]; cbn [bind];
      [apply IH | reflexivity].
Qed.

(** X2: the project and version filters act on each record alone: folding
    with filters gives the same result as folding, without filters, the
    records whose project and version the filters let through.  The language
    test is made in both. *)
Theorem read_filters_prefilter
  (self : User) (wss : list WeblateStat) (pl vl : list string) :
  read_from_weblate_stats self wss pl vl =
  read_from_weblate_stats self
    (filter (fun ws =>
               (negb (truthy pl) || contains (projectSlug ws) pl) &&
               (negb (truthy vl) || contains (versionSlug ws) vl))
       wss)
    [] [].
Proof.
  unfold read_from_weblate_stats. revert self.
  induction wss as [|ws wss IH]; intros self; cbn [filter for_each];
    [reflexivity|].
  rewrite fold_record_keeps. unfold keeps.
  destruct ((negb (truthy pl) || contains (projectSlug ws) pl) &&
            (negb (truthy vl) || contains (versionSlug ws) vl)) eqn:E.
  - cbn [for_each andb]. rewrite fold_record_keeps. unfold keeps.
    cbn [truthy negb orb andb].
    destruct (if String.eqb (lang self) (localeId ws) then _ else _)
      as [s1|e]; cbn [bind]; [apply IH | reflexivity].
  - cbn [andb bind]. apply IH.
Qed.

(** X3: a user built by the constructor and folds can always be folded
    further: [read_from_weblate_stats] raises nothing on it, whatever the
    records and filters, and keeps its identity and language. *)
Theorem read_succeeds_on_folded
  (self : User) (wss : list WeblateStat) (pl vl : list string) :
  folded self ->
  exists self',
    read_from_weblate_stats self wss pl vl = Ok self' /\
    folded self' /\
    user_id self' = user_id self /\ lang self' = lang self.
Proof.
  intros Hf.
  destruct (read_buckets_only wss pl vl self (folded_buckets_only _ Hf))
    as (self' & Hread & _).
  exists self'. split; [exact Hread|]. split.
  - exact (folded_read _ _ _ _ _ Hf Hread).
  - exact (read_identity _ _ _ _ _ Hread).
Qed.

Lemma read_succeeds_on_folded_witness :
  folded user_1001_translated /\
  exists self',
    read_from_weblate_stats user_1001_translated
      [approved_record; japanese_record; fuzzy_record] ["i18n"] [] = Ok self' /\
    user_id self' = "1001" /\ lang self' = "ko".
Proof.
  split; [exact user_1001_translated_folded|].
  destruct (read_succeeds_on_folded user_1001_translated
              [approved_record; japanese_record; fuzzy_record] ["i18n"] []
              user_1001_translated_folded)
    as (self' & Hread & _ & Hid & Hl).
  exists self'. auto.
Defined.

(** ** Counters as sums over the batch *)

Lemma count_record_counts self ws t r :
  slot_or_new (projectSlug ws) (versionSlug ws) (stats self) = Bucket t r ->
  exists self1,
    count_record self ws = Ok self1 /\
    (forall p v k,
        trans_count self1 p v k =
        trans_count self p v k +
        if String.eqb (projectSlug ws) p && String.eqb (versionSlug ws) v &&
           contains (savedState ws) trans_fields
        then (if String.eqb k (savedState ws) then wordCount ws else 0)
             + (if String.eqb k "total" then wordCount ws else 0)
        else 0) /\
    (forall p v k,
        review_count self1 p v k =
        review_count self p v k +
        if String.eqb (projectSlug ws) p && String.eqb (versionSlug ws) v &&
           contains (savedState ws) review_fields
        then (if String.eqb k (savedState ws) then wordCount ws else 0)
             + (if String.eqb k "total" then wordCount ws else 0)
        else 0).
Proof.
  intros Hslot. rewrite (count_record_bucket _ _ _ _ Hslot).
  eexists. split; [reflexivity|].
  split; intros p v k;
    (destruct (String.eqb (projectSlug ws) p) eqn:Ep;
     [destruct (String.eqb (versionSlug ws) v) eqn:Ev|]); cbn [andb].
  - apply String.eqb_eq in Ep, Ev. subst p v.
    rewrite (trans_count_slot self), Hslot.
    unfold trans_count. cbn [stats with_stats]. rewrite find_slot_set_same.
    destruct (contains (savedState ws) trans_fields);
      [rewrite !get_default_iadd|]; lia.
  - apply String.eqb_neq in Ev. unfold trans_count. cbn [stats with_stats].
    rewrite find_slot_set_other by auto. lia.
  - apply String.eqb_neq in Ep. unfold trans_count. cbn [stats with_stats].
    rewrite find_slot_set_other by auto. lia.
  - apply String.eqb_eq in Ep, Ev. subst p v.
    rewrite (review_count_slot self), Hslot.
    unfold review_count. cbn [stats with_stats]. rewrite find_slot_set_same.
    destruct (contains (savedState ws) review_fields);
      [rewrite !get_default_iadd|]; lia.
  - apply String.eqb_neq in Ev. unfold review_count. cbn [stats with_stats].
    rewrite find_slot_set_other by auto. lia.
  - apply String.eqb_neq in Ep. unfold review_count. cbn [stats with_stats].
    rewrite find_slot_set_other by auto. lia.
Qed.

Lemma fold_record_counts pl vl self ws :
  buckets_only (stats self) ->
  exists self1,
    fold_record pl vl self ws = Ok self1 /\
    buckets_only (stats self1) /\
    lang self1 = lang self /\
    (forall p v k,
        trans_count self1 p v k =
        trans_count self p v k +
        record_adds trans_fields pl vl (lang self) p v k ws) /\
    (forall p v k,
        review_count self1 p v k =
        review_count self p v k +
        record_adds review_fields pl vl (lang self) p v k ws).
Proof.
  intros Hb.
  destruct (fold_record_buckets_only pl vl self ws Hb) as (s1 & Hfold & Hb1).
  exists s1. split; [exact Hfold|]. split; [exact Hb1|].
  split; [exact (fold_record_lang _ _ _ _ _ Hfold)|].
  revert Hfold. rewrite fold_record_keeps. unfold record_adds.
  destruct (keeps pl vl (lang self) ws); cbn [andb].
  - destruct (slot_or_new_bucket (projectSlug ws) (versionSlug ws) _ Hb)
      as (t & r & Hslot).
    destruct (count_record_counts self ws t r Hslot) as (s2 & -> & Ht & Hr).
    intros [= <-]. split; assumption.
  - intros [= <-]. split; intros p v k; lia.
Qed.

Lemma read_counts wss pl vl self :
  buckets_only (stats self) ->
  exists self',
    read_from_weblate_stats self wss pl vl = Ok self' /\
    (forall p v k,
        trans_count self' p v k =
        trans_count self p v k +
        batch_adds trans_fields pl vl (lang self) p v k wss) /\
    (forall p v k,
        review_count self' p v k =
        review_count self p v k +
        batch_adds review_fields pl vl (lang self) p v k wss).
Proof.
  unfold read_from_weblate_stats. revert self.
  induction wss as [|ws wss IH]; intros self Hb; cbn [for_each batch_adds
                                                        fold_right].
  - exists self. repeat split; intros; lia.
  - destruct (fold_record_counts pl vl self ws Hb)
      as (s1 & -> & Hb1 & Hl & Ht & Hr).
    cbn [bind]. destruct (IH s1 Hb1) as (s2 & Hread & Ht2 & Hr2).
    exists s2. split; [exact Hread|].
    rewrite Hl in Ht2, Hr2.
    split; intros p v k; [rewrite Ht2, Ht | rewrite Hr2, Hr];
      unfold batch_adds; lia.
Qed.

Lemma batch_adds_perm fields pl vl language p v k wss wss' :
  Permutation wss wss' ->
  batch_adds fields pl vl language p v k wss =
  batch_adds fields pl vl language p v k wss'.
Proof.
  unfold batch_adds. induction 1; cbn [fold_right]; lia.
Qed.

(** X4: each counter of a bucket is the sum over the folded records: after a
    batch, counter [k] of bucket (p, v) has grown by the word counts of the
    records that pass the filters, carry the user's language, belong to
    (p, v) and have [k] as state label, and "total" by the word counts of all
    such records with a label among the fields. *)
Theorem counters_are_sums
  (self : User) (wss : list WeblateStat) (pl vl : list string) :
  folded self ->
  exists self',
    read_from_weblate_stats self wss pl vl = Ok self' /\
    (forall p v k,
        trans_count self' p v k =
        trans_count self p v k +
        batch_adds trans_fields pl vl (lang self) p v k wss) /\
    (forall p v k,
        review_count self' p v k =
        review_count self p v k +
        batch_adds review_fields pl vl (lang self) p v k wss).
Proof.
  intros Hf. apply read_counts. now apply folded_buckets_only.
Qed.

Lemma counters_are_sums_witness :
  folded user_1001 /\
  exists self',
    read_from_weblate_stats user_1001
      [translated_record; japanese_record; approved_record] [] [] = Ok self' /\
    trans_count self' "i18n" "master" "total" = 120 /\
    trans_count self' "i18n" "master" "Translated" = 100 /\
    review_count self' "i18n" "master" "total" = 20.
Proof.
  split; [apply folded_new|].
  destruct (counters_are_sums user_1001
              [translated_record; japanese_record; approved_record] [] []
              (folded_new "1001" "ko"))
    as (self' & Hread & Ht & Hr).
  exists self'. split; [exact Hread|].
  rewrite !Ht, !Hr. repeat split; reflexivity.
Defined.

(** X5: the counters do not depend on the order of the records: two batches
    that are permutations of each other, folded into the same user, give the
    same value for every counter of every bucket. *)
Theorem counters_independent_of_order
  (self : User) (wss wss' : list WeblateStat) (pl vl : list string) :
  folded self ->
  Permutation wss wss' ->
  exists self1 self2,
    read_from_weblate_stats self wss pl vl = Ok self1 /\
    read_from_weblate_stats self wss' pl vl = Ok self2 /\
    (forall p v k, trans_count self1 p v k = trans_count self2 p v k) /\
    (forall p v k, review_count self1 p v k = review_count self2 p v k).
Proof.
  intros Hf Hperm. apply folded_buckets_only in Hf.
  destruct (read_counts wss pl vl self Hf) as (s1 & H1 & Ht1 & Hr1).
  destruct (read_counts wss' pl vl self Hf) as (s2 & H2 & Ht2 & Hr2).
  exists s1, s2. split; [exact H1|]. split; [exact H2|].
  split; intros p v k.
  - rewrite Ht1, Ht2. f_equal. now apply batch_adds_perm.
  - rewrite Hr1, Hr2. f_equal. now apply batch_adds_perm.
Qed.

Lemma counters_independent_of_order_witness :
  exists self1 self2,
    read_from_weblate_stats user_1001
      [translated_record; approved_record] [] [] = Ok self1 /\
    read_from_weblate_stats user_1001
      [approved_record; translated_record] [] [] = Ok self2 /\
    (forall p v k, trans_count self1 p v k = trans_count self2 p v k) /\
    (forall p v k, review_count self1 p v k = review_count self2 p v k).
Proof.
  apply (counters_independent_of_order user_1001
           [translated_record; approved_record]
           [approved_record; translated_record] [] []).
  - apply folded_new.
  - apply perm_swap.
Defined.

(** ** The total bucket *)

Lemma get_counters_of (f : string -> Z) fields k :
  In k fields -> Dict.get k (map (fun k => (k, f k)) fields) = Some (f k).
Proof.
  induction fields as [|k0 fields IH]; simpl; [contradiction|].
  destruct (String.eqb k0 k) eqn:E.
  - apply String.eqb_eq in E. now subst.
  - apply String.eqb_neq in E. intros [H|H]; [contradiction | now apply IH].
Qed.

Lemma populated_slots self :
  let s := stats self in
  let tt := totals_of "translation-stats" trans_fields s in
  let tr := totals_of "review-stats" review_fields s in
  let s' := set_slot "__total__" "review-stats" (Totals tr)
              (set_slot "__total__" "translation-stats" (Totals tt) s) in
  find_slot "__total__" "translation-stats" s' = Some (Totals tt) /\
  find_slot "__total__" "review-stats" s' = Some (Totals tr) /\
  (forall p v,
      p <> "__total__" \/ (v <> "translation-stats" /\ v <> "review-stats") ->
      find_slot p v s' = find_slot p v s).
Proof.
  cbv zeta. split; [|split].
  - rewrite find_slot_set_other by (right; discriminate).
    apply find_slot_set_same.
  - apply find_slot_set_same.
  - intros p v Hne.
    rewrite !find_slot_set_other; [reflexivity | |];
      destruct Hne as [Hp|[Ht Hr]]; auto.
Qed.

(** X6: on a user built by the constructor and folds,
    [populate_total_stats] succeeds; each field of the two dicts it stores
    under "__total__" is the sum of that field over every slot of the
    mapping; identity, language and every slot outside the two reserved keys
    are left as they were. *)
Theorem populate_totals_are_sums (self : User) :
  folded self ->
  exists self',
    populate_total_stats self = Ok self' /\
    user_id self' = user_id self /\ lang self' = lang self /\
    (forall k,
        In k trans_fields ->
        total_count self' "translation-stats" k =
        Some (field_sum "translation-stats" k (stats self))) /\
    (forall k,
        In k review_fields ->
        total_count self' "review-stats" k =
        Some (field_sum "review-stats" k (stats self))) /\
    (forall p v,
        p <> "__total__" \/ (v <> "translation-stats" /\ v <> "review-stats") ->
        find_slot p v (stats self') = find_slot p v (stats self)).
Proof.
  intros Hf.
  assert (Hc : all_clean (stats self))
    by now apply buckets_only_all_clean, folded_buckets_only.
  rewrite (populate_clean _ Hc). eexists. split; [reflexivity|].
  destruct (populated_slots self) as (Ht & Hr & Hother).
  cbn [user_id lang stats with_stats]. split; [reflexivity|].
  split; [reflexivity|]. unfold total_count. cbn [stats with_stats].
  rewrite Ht, Hr. split; [|split].
  - intros k Hk. now apply get_counters_of.
  - intros k Hk. now apply get_counters_of.
  - exact Hother.
Qed.

Lemma populate_totals_are_sums_witness :
  folded user_1001_translated /\
  exists self',
    populate_total_stats user_1001_translated = Ok self' /\
    total_count self' "translation-stats" "Translated" = Some 100 /\
    total_count self' "review-stats" "total" = Some 0 /\
    find_slot "i18n" "master" (stats self') =
    find_slot "i18n" "master" (stats user_1001_translated).
Proof.
  split; [exact user_1001_translated_folded|].
  destruct (populate_totals_are_sums user_1001_translated
              user_1001_translated_folded)
    as (self' & Hpop & _ & _ & Ht & Hr & Hs).
  exists self'. split; [exact Hpop|].
  rewrite Ht by (simpl; auto). rewrite Hr by (simpl; auto).
  rewrite Hs by (left; discriminate). repeat split; reflexivity.
Defined.

(** X7: once [populate_total_stats] has run, the two reserved keys hold
    dicts of totals, not buckets: folding a record of project "__total__"
    whose version is "translation-stats" or "review-stats" and whose state
    label is one of the fields raises [KeyError("translation-stats")], and
    the whole batch is lost. *)
Theorem read_after_populate_raises
  (self0 self : User) (ws : WeblateStat) (rest : list WeblateStat)
  (pl vl : list string) :
  folded self0 ->
  populate_total_stats self0 = Ok self ->
  passes_filters pl vl self ws ->
  projectSlug ws = "__total__" ->
  versionSlug ws = "translation-stats" \/ versionSlug ws = "review-stats" ->
  In (savedState ws) trans_fields ->
  read_from_weblate_stats self (ws :: rest) pl vl =
  Raise (KeyError "translation-stats").
Proof.
  intros Hf Hpop Hpass Hp Hv Hstate.
  assert (Hc : all_clean (stats self0))
    by now apply buckets_only_all_clean, folded_buckets_only.
  rewrite (populate_clean _ Hc) in Hpop. injection Hpop as <-.
  destruct (populated_slots self0) as (Ht & Hr & _).
  unfold read_from_weblate_stats. cbn [for_each].
  rewrite (fold_record_passes _ _ _ _ Hpass), count_record_eq. cbv zeta.
  apply contains_In in Hstate. rewrite Hstate, Hp.
  unfold slot_or_new. cbn [stats with_stats].
  unfold totals_of, trans_fields, review_fields in Ht, Hr.
  cbn [map] in Ht, Hr.
  destruct Hv as [-> | ->]; [rewrite Ht | rewrite Hr]; reflexivity.
Qed.

Lemma read_after_populate_raises_witness :
  exists self,
    populate_total_stats user_1001_translated = Ok self /\
    read_from_weblate_stats self [sentinel_record; approved_record] [] [] =
    Raise (KeyError "translation-stats").
Proof.
  eexists. split; [reflexivity|].
  apply (read_after_populate_raises user_1001_translated _
           sentinel_record [approved_record] [] []).
  - exact user_1001_translated_folded.
  - reflexivity.
  - repeat split; auto.
  - reflexivity.
  - left. reflexivity.
  - simpl. auto.
Defined.

Lemma read_keeps_no_total_project wss pl vl self :
  buckets_only (stats self) ->
  Dict.get "__total__" (stats self) = None ->
  Forall (fun ws => projectSlug ws <> "__total__") wss ->
  exists self',
    read_from_weblate_stats self wss pl vl = Ok self' /\
    buckets_only (stats self') /\
    Dict.get "__total__" (stats self') = None.
Proof.
  unfold read_from_weblate_stats. intros Hb Hn Hwss. revert self Hb Hn.
  induction Hwss as [|ws wss Hne _ IH]; intros self Hb Hn; cbn [for_each].
  - eauto.
  - rewrite fold_record_keeps.
    destruct (keeps pl vl (lang self) ws); cbn [bind]; [|now apply IH].
    destruct (slot_or_new_bucket (projectSlug ws) (versionSlug ws) _ Hb)
      as (t & r & Hslot).
    rewrite (count_record_bucket _ _ _ _ Hslot). cbn [bind]. apply IH.
    + cbn [stats with_stats]. now apply set_slot_buckets_only.
    + cbn [stats with_stats]. unfold set_slot.
      now rewrite get_set_other.
Qed.

Lemma no_total_project_no_slot v s :
  Dict.get "__total__" s = None -> find_slot "__total__" v s = None.
Proof. unfold find_slot. now intros ->. Qed.

(** X8: as long as no record of a project named "__total__" is folded,
    [populate_total_stats] can be called again and again: the second call
    succeeds and leaves the user exactly as the first call left it. *)
Theorem populate_idempotent_without_total_project
  (self : User) (wss : list WeblateStat) (pl vl : list string) :
  folded self ->
  Dict.get "__total__" (stats self) = None ->
  Forall (fun ws => projectSlug ws <> "__total__") wss ->
  exists self' self1,
    read_from_weblate_stats self wss pl vl = Ok self' /\
    populate_total_stats self' = Ok self1 /\
    populate_total_stats self1 = Ok self1.
Proof.
  intros Hf Hn Hwss.
  destruct (read_keeps_no_total_project wss pl vl self
              (folded_buckets_only _ Hf) Hn Hwss) as (self' & Hread & Hb & Hn').
  destruct (populate_twice self') as (self1 & H1 & H2).
  - now apply buckets_only_all_clean.
  - intros t r. now rewrite no_total_project_no_slot.
  - intros t r. now rewrite no_total_project_no_slot.
  - exists self', self1. auto.
Qed.

Lemma populate_idempotent_without_total_project_witness :
  exists self' self1,
    read_from_weblate_stats user_1001
      [translated_record; approved_record] [] [] = Ok self' /\
    populate_total_stats self' = Ok self1 /\
    populate_total_stats self1 = Ok self1.
Proof.
  apply (populate_idempotent_without_total_project user_1001
           [translated_record; approved_record] [] []).
  - apply folded_new.
  - reflexivity.
  - repeat constructor; discriminate.
Defined.

(** X9: as long as no record carries the state label "total", "total" is
    the sum of the other fields in both counter sets of every bucket, and in
    both dicts of totals that [populate_total_stats] then stores. *)
Theorem total_is_sum_without_total_label
  (user_id language_code : string) (wss : list WeblateStat)
  (pl vl : list string) :
  Forall (fun ws => savedState ws <> "total") wss ->
  exists self self' tt tr,
    read_from_weblate_stats (new_User user_id language_code) wss pl vl
      = Ok self /\
    populate_total_stats self = Ok self' /\
    (forall p v,
        trans_count self p v "total" =
        trans_count self p v "Translated" + trans_count self p v "NeedReview"
        + trans_count self p v "Approved" + trans_count self p v "Rejected") /\
    (forall p v,
        review_count self p v "total" =
        review_count self p v "Approved" + review_count self p v "Rejected") /\
    find_slot "__total__" "translation-stats" (stats self') = Some (Totals tt) /\
    find_slot "__total__" "review-stats" (stats self') = Some (Totals tr) /\
    Dict.get_default "total" 0 tt =
      Dict.get_default "Translated" 0 tt + Dict.get_default "NeedReview" 0 tt
      + Dict.get_default "Approved" 0 tt + Dict.get_default "Rejected" 0 tt /\
    Dict.get_default "total" 0 tr =
      Dict.get_default "Approved" 0 tr + Dict.get_default "Rejected" 0 tr.
Proof.
  intros Hwss.
  destruct (read_balanced wss pl vl (new_User user_id language_code))
    as (self & Hread & Hb & Hbal); [constructor | constructor | exact Hwss |].
  destruct (populate_balanced self (buckets_only_all_clean _ Hb) Hbal)
    as (self' & Hpop & Ht & Hr & Hbt & Hbr).
  exists self, self'. do 2 eexists.
  split; [exact Hread|]. split; [exact Hpop|].
  split; [|split; [|split; [exact Ht | split; [exact Hr|]]]].
  - intros p v. unfold trans_count.
    destruct (find_slot p v (stats self)) as [[t r|c]|] eqn:E; try lia.
    destruct (find_slot_every _ _ _ _ _ Hbal E) as [Hbt' _].
    unfold balanced, states_sum in Hbt'. simpl in Hbt'. lia.
  - intros p v. unfold review_count.
    destruct (find_slot p v (stats self)) as [[t r|c]|] eqn:E; try lia.
    destruct (find_slot_every _ _ _ _ _ Hbal E) as [_ Hbr'].
    unfold balanced, states_sum in Hbr'. simpl in Hbr'. lia.
  - unfold balanced, states_sum in Hbt, Hbr. simpl in Hbt, Hbr |- *.
    split; lia.
Qed.

Lemma total_is_sum_without_total_label_witness :
  exists self,
    read_from_weblate_stats (new_User "1001" "ko")
      [translated_record; approved_record; fuzzy_record] [] [] = Ok self /\
    trans_count self "i18n" "master" "total" =
    trans_count self "i18n" "master" "Translated"
    + trans_count self "i18n" "master" "NeedReview"
    + trans_count self "i18n" "master" "Approved"
    + trans_count self "i18n" "master" "Rejected".
Proof.
  destruct (total_is_sum_without_total_label "1001" "ko"
              [translated_record; approved_record; fuzzy_record] [] [])
    as (self & _ & _ & _ & Hread & _ & Ht & _).
  - repeat constructor; discriminate.
  - exists self. split; [exact Hread | apply Ht].
Defined.

(** ** The converters and the writers *)

Lemma collect_dict fields c :
  collect fields (VDict c) =
  Ok (map (fun k => CInt (Dict.get_default k 0 c)) fields).
Proof.
  induction fields as [|k fields IH]; cbn [collect map]; [reflexivity|].
  cbn [value_get bind]. rewrite IH. reflexivity.
Qed.

Lemma version_rows_clean self detail p data v st :
  clean st ->
  version_rows self detail p data (v, st) =
  Ok (data ++ if detail then [bucket_row self p v st] else []).
Proof.
  intros [[ct Ht] [cr Hr]]. unfold version_rows, bucket_row, slot_field.
  rewrite Ht, Hr. destruct detail; [|now rewrite app_nil_r].
  rewrite !collect_dict. reflexivity.
Qed.

Lemma versions_rows_clean self detail p vs data :
  Forall (fun e : string * slot => clean (snd e)) vs ->
  for_each (version_rows self detail p) vs data =
  Ok (data ++
      if detail
      then map (fun e : string * slot => bucket_row self p (fst e) (snd e)) vs
      else []).
Proof.
  intros Hvs. revert data.
  induction Hvs as [|[v st] vs Hst _ IH]; intros data; cbn [for_each].
  - destruct detail; now rewrite app_nil_r.
  - cbn [snd] in Hst. rewrite (version_rows_clean _ _ _ _ _ _ Hst).
    cbn [bind]. rewrite IH, <- app_assoc.
    destruct detail; reflexivity.
Qed.

Lemma project_rows_clean self detail s data :
  all_clean s ->
  for_each (project_rows self detail) s data =
  Ok (data ++ if detail then detail_rows self s else []).
Proof.
  intros Hs. revert data.
  induction Hs as [|[p vs] s Hvs _ IH]; intros data; cbn [for_each].
  - destruct detail; now rewrite app_nil_r.
  - unfold project_rows at 1. cbn [snd] in Hvs.
    unfold detail_rows. cbn [flat_map fst snd]. fold (detail_rows self s).
    destruct (String.eqb p "__total__"); cbn [bind app].
    + apply IH.
    + rewrite (versions_rows_clean _ _ _ _ _ Hvs). cbn [bind].
      rewrite IH, <- app_assoc. destruct detail; reflexivity.
Qed.

Lemma collect_total_found key fields s c (f : string -> Z) :
  find_slot "__total__" key s = Some (Totals c) ->
  (forall k, In k fields -> Dict.get k c = Some (f k)) ->
  collect_total key fields s = Ok (map (fun k => CInt (f k)) fields).
Proof.
  intros Hslot. rewrite find_slot_get_default in Hslot.
  induction fields as [|k fields IH]; intros Hf; cbn [collect_total map];
    [reflexivity|].
  unfold Dict.getitem at 1. rewrite Hslot. cbn [bind slot_item].
  unfold Dict.getitem. rewrite (Hf k (or_introl eq_refl)). cbn [bind].
  rewrite IH; [reflexivity|]. intros k' Hk'. apply Hf. now right.
Qed.

Lemma detail_rows_set_total self x s :
  detail_rows self (Dict.set "__total__" x s) = detail_rows self s.
Proof.
  unfold detail_rows. induction s as [|[p vs] s IH]; cbn [Dict.set flat_map].
  - reflexivity.
  - destruct (String.eqb p "__total__") eqn:E; cbn [flat_map fst snd].
    + rewrite E. reflexivity.
    + rewrite E, IH. reflexivity.
Qed.

Lemma detail_rows_populated self s :
  detail_rows self (populated s) = detail_rows self s.
Proof.
  unfold populated, set_slot. now rewrite !detail_rows_set_total.
Qed.

Lemma populated_clean s : all_clean s -> all_clean (populated s).
Proof.
  intros Hs. unfold populated.
  repeat apply set_slot_every; try exact Hs; apply totals_clean.
Qed.

Lemma populate_populated self :
  all_clean (stats self) ->
  populate_total_stats self = Ok (with_stats self (populated (stats self))).
Proof. intros Hs. now rewrite (populate_clean _ Hs). Qed.

(** The rows of a user whose slots are all clean. *)
Lemma convert_rows_clean self detail :
  all_clean (stats self) ->
  convert_to_flattened_data self detail =
  Ok (with_stats self (populated (stats self)), user_rows detail self).
Proof.
  intros Hs. unfold convert_to_flattened_data.
  rewrite (populate_populated _ Hs). cbn [bind stats with_stats].
  rewrite (project_rows_clean _ _ _ _ (populated_clean _ Hs)). cbn [bind app].
  destruct (populated_slots self) as (Ht & Hr & _). fold (populated (stats self)) in Ht, Hr.
  rewrite (collect_total_found _ _ _ _
             (fun k => field_sum "translation-stats" k (stats self)) Ht)
    by (intros k Hk; now apply get_counters_of).
  cbn [bind].
  rewrite (collect_total_found _ _ _ _
             (fun k => field_sum "review-stats" k (stats self)) Hr)
    by (intros k Hk; now apply get_counters_of).
  cbn [bind]. rewrite detail_rows_populated.
  reflexivity.
Qed.

Lemma convert_object_clean self detail :
  all_clean (stats self) ->
  convert_to_serializable_data self detail =
  Ok (with_stats self (populated (stats self)), user_object detail self).
Proof.
  intros Hs. unfold convert_to_serializable_data.
  rewrite (populate_populated _ Hs). reflexivity.
Qed.

Lemma folded_all_clean self : folded self -> all_clean (stats self).
Proof. intros Hf. now apply buckets_only_all_clean, folded_buckets_only. Qed.

(** X10: on a user built by the constructor and folds,
    [convert_to_flattened_data] succeeds and returns, when [detail] is set,
    one row per bucket outside "__total__" in the order the buckets were
    created, each with the bucket's counters in field order (a missing
    counter reads 0), and then in every case one last row with "-" for
    project and version and the field sums over the whole mapping. *)
Theorem convert_to_flattened_data_rows (self : User) (detail : bool) :
  folded self ->
  exists self',
    populate_total_stats self = Ok self' /\
    convert_to_flattened_data self detail =
    Ok (self',
        (if detail then detail_rows self (stats self) else [])
        ++ [total_row self (stats self)]).
Proof.
  intros Hf. apply folded_all_clean in Hf.
  exists (with_stats self (populated (stats self))). split.
  - now apply populate_populated.
  - now apply convert_rows_clean.
Qed.

Lemma convert_to_flattened_data_rows_witness :
  folded user_1001_translated /\
  exists self',
    convert_to_flattened_data user_1001_translated true =
    Ok (self',
        [[CStr "1001"; CStr "ko"; CStr "i18n"; CStr "master";
          CInt 100; CInt 100; CInt 0; CInt 0; CInt 0;
          CInt 0; CInt 0; CInt 0];
         [CStr "1001"; CStr "ko"; CStr "-"; CStr "-";
          CInt 100; CInt 100; CInt 0; CInt 0; CInt 0;
          CInt 0; CInt 0; CInt 0]]).
Proof.
  split; [exact user_1001_translated_folded|].
  destruct (convert_to_flattened_data_rows user_1001_translated true
              user_1001_translated_folded) as (self' & _ & Hconv).
  exists self'. exact Hconv.
Defined.

Lemma bucket_row_length self p v st :
  List.length (bucket_row self p v st) =
  List.length get_flattened_data_title.
Proof. reflexivity. Qed.

Lemma detail_rows_shape self s :
  Forall (fun row => List.length row = List.length get_flattened_data_title)
    (detail_rows self s) /\
  List.length (detail_rows self s) = bucket_count s.
Proof.
  unfold detail_rows. induction s as [|[p vs] s [IHw IHn]];
    cbn [flat_map bucket_count fold_right fst snd].
  - split; [constructor | reflexivity].
  - fold (bucket_count s). destruct (String.eqb p "__total__"); cbn [app].
    + split; assumption.
    + split.
      * apply Forall_app. split; [|exact IHw].
        apply Forall_forall. intros row Hrow. apply in_map_iff in Hrow.
        destruct Hrow as ([v st] & <- & _). apply bucket_row_length.
      * rewrite length_app, length_map, IHn. reflexivity.
Qed.

(** X11: every row that [convert_to_flattened_data] returns for a user built
    by the constructor and folds has as many cells as the title row (12);
    without [detail] there is exactly one row, with [detail] one more than
    there are buckets outside "__total__". *)
Theorem convert_to_flattened_data_shape (self : User) (detail : bool) :
  folded self ->
  exists self' rows,
    convert_to_flattened_data self detail = Ok (self', rows) /\
    Forall (fun row => List.length row = List.length get_flattened_data_title)
      rows /\
    List.length rows =
    S (if detail then bucket_count (stats self) else 0%nat).
Proof.
  intros Hf. apply folded_all_clean in Hf.
  rewrite (convert_rows_clean _ _ Hf). do 2 eexists.
  split; [reflexivity|]. unfold user_rows.
  destruct (detail_rows_shape self (stats self)) as [Hw Hn].
  split.
  - apply Forall_app. split.
    + destruct detail; [exact Hw | constructor].
    + repeat constructor.
  - rewrite length_app. cbn [List.length].
    destruct detail; [rewrite Hn|]; cbn [List.length]; lia.
Qed.

Lemma convert_to_flattened_data_shape_witness :
  folded user_1001_translated /\
  exists self' rows,
    convert_to_flattened_data user_1001_translated true = Ok (self', rows) /\
    List.length rows = 2%nat.
Proof.
  split; [exact user_1001_translated_folded|].
  destruct (convert_to_flattened_data_shape user_1001_translated true
              user_1001_translated_folded) as (self' & rows & Hconv & _ & Hn).
  exists self', rows. split; [exact Hconv | exact Hn].
Defined.

Lemma populated_twice s :
  all_clean s ->
  Dict.get "__total__" s = None ->
  populated (populated s) = populated s /\
  forall key k,
    key = "translation-stats" \/ key = "review-stats" ->
    field_sum key k (populated s) = field_sum key k s.
Proof.
  intros Hs Hn.
  assert (Hsum : forall key k,
             key = "translation-stats" \/ key = "review-stats" ->
             field_sum key k (populated s) = field_sum key k s).
  { intros key k Hkey. unfold populated.
    apply field_sum_populated; auto; try apply totals_clean;
      intros t r; now rewrite no_total_project_no_slot. }
  split; [|exact Hsum].
  unfold populated at 1.
  replace (totals_of "review-stats" review_fields (populated s))
    with (totals_of "review-stats" review_fields s)
    by (apply counters_ext; intros k; symmetry; apply Hsum; auto).
  replace (totals_of "translation-stats" trans_fields (populated s))
    with (totals_of "translation-stats" trans_fields s)
    by (apply counters_ext; intros k; symmetry; apply Hsum; auto).
  assert (Ht : find_slot "__total__" "translation-stats" (populated s) =
               Some (Totals (totals_of "translation-stats" trans_fields s))).
  { unfold populated. rewrite find_slot_set_other by (right; discriminate).
    apply find_slot_set_same. }
  assert (Hr : find_slot "__total__" "review-stats" (populated s) =
               Some (Totals (totals_of "review-stats" review_fields s))).
  { unfold populated. apply find_slot_set_same. }
  now rewrite (set_slot_stored _ _ _ _ Ht), (set_slot_stored _ _ _ _ Hr).
Qed.

(** X12: converting is repeatable.  For a user built by the constructor and
    folds that holds no project named "__total__", a second call of
    [convert_to_flattened_data] on the user the first call returned gives the
    same user and the same rows. *)
Theorem convert_to_flattened_data_repeatable (self : User) (detail : bool) :
  folded self ->
  Dict.get "__total__" (stats self) = None ->
  exists self' rows,
    convert_to_flattened_data self detail = Ok (self', rows) /\
    convert_to_flattened_data self' detail = Ok (self', rows).
Proof.
  intros Hf Hn. apply folded_all_clean in Hf.
  destruct (populated_twice _ Hf Hn) as [Htwice Hsum].
  rewrite (convert_rows_clean _ _ Hf). do 2 eexists.
  split; [reflexivity|].
  rewrite convert_rows_clean by (now apply populated_clean).
  cbn [stats with_stats]. rewrite Htwice.
  unfold user_rows, total_row. cbn [stats with_stats user_id lang].
  rewrite detail_rows_populated.
  rewrite (map_ext
             (fun k => CInt (field_sum "translation-stats" k
                               (populated (stats self))))
             (fun k => CInt (field_sum "translation-stats" k (stats self))))
    by (intros k; now rewrite Hsum by auto).
  rewrite (map_ext
             (fun k => CInt (field_sum "review-stats" k
                               (populated (stats self))))
             (fun k => CInt (field_sum "review-stats" k (stats self))))
    by (intros k; now rewrite Hsum by auto).
  reflexivity.
Qed.

Lemma convert_to_flattened_data_repeatable_witness :
  exists self' rows,
    convert_to_flattened_data user_1001_translated true = Ok (self', rows) /\
    convert_to_flattened_data self' true = Ok (self', rows).
Proof.
  apply (convert_to_flattened_data_repeatable user_1001_translated true).
  - exact user_1001_translated_folded.
  - reflexivity.
Defined.

Lemma users_to_write_In users include_no_activities user :
  In user (users_to_write users include_no_activities) -> In user users.
Proof.
  unfold users_to_write. intros H.
  apply (Permutation_in _ (sorted_perm _)) in H.
  apply filter_In in H. tauto.
Qed.

Lemma users_to_write_clean users include_no_activities :
  Forall folded users ->
  Forall (fun u => all_clean (stats u))
    (users_to_write users include_no_activities).
Proof.
  intros Hf. apply Forall_forall. intros u Hu.
  apply users_to_write_In in Hu. rewrite Forall_forall in Hf.
  apply folded_all_clean. now apply Hf.
Qed.

Lemma csv_rows_clean detail users acc :
  Forall (fun u => all_clean (stats u)) users ->
  for_each
    (fun rows user =>
       r <- convert_to_flattened_data user detail ;;
       Ok (rows ++ snd r))
    users acc =
  Ok (acc ++ flat_map (user_rows detail) users).
Proof.
  intros Hus. revert acc.
  induction Hus as [|u users Hu _ IH]; intros acc; cbn [for_each flat_map].
  - now rewrite app_nil_r.
  - rewrite (convert_rows_clean _ _ Hu). cbn [bind snd].
    rewrite IH, <- app_assoc. reflexivity.
Qed.

Lemma json_objects_clean detail users acc :
  Forall (fun u => all_clean (stats u)) users ->
  for_each
    (fun objects user =>
       r <- convert_to_serializable_data user detail ;;
       Ok (objects ++ [snd r]))
    users acc =
  Ok (acc ++ map (user_object detail) users).
Proof.
  intros Hus. revert acc.
  induction Hus as [|u users Hu _ IH]; intros acc; cbn [for_each map].
  - now rewrite app_nil_r.
  - rewrite (convert_object_clean _ _ Hu). cbn [bind snd].
    rewrite IH, <- app_assoc. reflexivity.
Qed.

(** X13: for users built by the constructor and folds the CSV report is
    always written: it is the title row, followed, for each user that needs
    output, in sorted order, by that user's detail rows (when [detail] is
    set) and total row. *)
Theorem write_csv_report
  (users : list User) (include_no_activities detail : bool) :
  Forall folded users ->
  write_stats_to_file users "csv" include_no_activities detail =
  Ok (CsvFile
        (get_flattened_data_title ::
         flat_map (user_rows detail)
           (users_to_write users include_no_activities))).
Proof.
  intros Hf. unfold write_stats_to_file, _write_stats_to_csvfile.
  cbn [String.eqb Ascii.eqb Bool.eqb andb].
  now rewrite (csv_rows_clean _ _ _
                 (users_to_write_clean _ include_no_activities Hf)).
Qed.

Lemma write_csv_report_witness :
  Forall folded report_users /\
  write_stats_to_file report_users "csv" true true =
  Ok (CsvFile
        [get_flattened_data_title;
         [CStr "tanaka"; CStr "ja"; CStr "-"; CStr "-";
          CInt 0; CInt 0; CInt 0; CInt 0; CInt 0; CInt 0; CInt 0; CInt 0];
         [CStr "1000"; CStr "ko"; CStr "-"; CStr "-";
          CInt 0; CInt 0; CInt 0; CInt 0; CInt 0; CInt 0; CInt 0; CInt 0];
         [CStr "1001"; CStr "ko"; CStr "i18n"; CStr "master";
          CInt 100; CInt 100; CInt 0; CInt 0; CInt 0;
          CInt 0; CInt 0; CInt 0];
         [CStr "1001"; CStr "ko"; CStr "-"; CStr "-";
          CInt 100; CInt 100; CInt 0; CInt 0; CInt 0;
          CInt 0; CInt 0; CInt 0]]).
Proof.
  assert (Hf : Forall folded report_users).
  { repeat constructor. exact user_1001_translated_folded. }
  split; [exact Hf|].
  exact (write_csv_report report_users true true Hf).
Defined.

(** X14: for users built by the constructor and folds the JSON report is
    always written, whatever the format string other than "csv": one object
    per user that needs output, in sorted order, holding the user's id,
    language and either the whole mapping with the totals stored in it
    ([detail]) or what the mapping holds under "__total__". *)
Theorem write_json_report
  (users : list User) (file_format : string)
  (include_no_activities detail : bool) :
  Forall folded users ->
  file_format <> "csv" ->
  write_stats_to_file users file_format include_no_activities detail =
  Ok (JsonFile
        (map (user_object detail)
           (users_to_write users include_no_activities))).
Proof.
  intros Hf Hfmt. unfold write_stats_to_file, _write_stats_to_jsonfile.
  apply String.eqb_neq in Hfmt. rewrite Hfmt.
  now rewrite (json_objects_clean _ _ _
                 (users_to_write_clean _ include_no_activities Hf)).
Qed.

Lemma write_json_report_witness :
  Forall folded report_users /\
  exists objects,
    write_stats_to_file report_users "json" false false
      = Ok (JsonFile objects) /\
    map ser_user_id objects = ["1001"].
Proof.
  assert (Hf : Forall folded report_users).
  { repeat constructor. exact user_1001_translated_folded. }
  split; [exact Hf|].
  eexists. split.
  - apply (write_json_report report_users "json" false false Hf).
    discriminate.
  - reflexivity.
Defined.

Lemma set_missing {V : Type} k (v : V) (d : Dict.t V) :
  Dict.get k d = None -> Dict.set k v d = d ++ [(k, v)].
Proof.
  induction d as [|[k0 v0] d IH]; simpl; [reflexivity|].
  destruct (String.eqb k0 k); [discriminate|].
  intros H. now rewrite IH.
Qed.

Lemma get_appended {V : Type} k (v : V) (d : Dict.t V) :
  Dict.get k d = None -> Dict.get k (d ++ [(k, v)]) = Some v.
Proof.
  induction d as [|[k0 v0] d IH]; simpl.
  - now rewrite String.eqb_refl.
  - destruct (String.eqb k0 k); [discriminate | exact IH].
Qed.

Lemma set_appended {V : Type} k (v v' : V) (d : Dict.t V) :
  Dict.get k d = None -> Dict.set k v' (d ++ [(k, v)]) = d ++ [(k, v')].
Proof.
  induction d as [|[k0 v0] d IH]; simpl.
  - now rewrite String.eqb_refl.
  - destruct (String.eqb k0 k); [discriminate|].
    intros H. now rewrite IH.
Qed.

Lemma populated_appends s :
  Dict.get "__total__" s = None ->
  populated s =
  s ++ [("__total__",
         [("translation-stats",
           Totals (totals_of "translation-stats" trans_fields s));
          ("review-stats",
           Totals (totals_of "review-stats" review_fields s))])].
Proof.
  intros Hn. unfold populated, set_slot, Dict.get_default.
  rewrite Hn. cbn [Dict.set]. rewrite (set_missing _ _ _ Hn).
  rewrite (get_appended _ _ _ Hn).
  cbn [Dict.set String.eqb Ascii.eqb Bool.eqb andb].
  now apply set_appended.
Qed.

(** X15: for a user built by the constructor and folds that holds no project
    named "__total__", [convert_to_serializable_data] succeeds; with
    [detail] the stats are the user's mapping with the total bucket appended
    last, without it they are the total bucket alone: the dict of
    translation totals, then the dict of review totals. *)
Theorem convert_to_serializable_data_stats (self : User) (detail : bool) :
  folded self ->
  Dict.get "__total__" (stats self) = None ->
  let total_bucket :=
    [("translation-stats",
      Totals (totals_of "translation-stats" trans_fields (stats self)));
     ("review-stats",
      Totals (totals_of "review-stats" review_fields (stats self)))] in
  exists self',
    populate_total_stats self = Ok self' /\
    convert_to_serializable_data self detail =
    Ok (self',
        {| ser_user_id := user_id self;
           ser_lang := lang self;
           ser_stats :=
             if detail
             then AllStats (stats self ++ [("__total__", total_bucket)])
             else TotalStats total_bucket |}).
Proof.
  intros Hf Hn total_bucket. apply folded_all_clean in Hf.
  exists (with_stats self (populated (stats self))).
  split; [now apply populate_populated|].
  rewrite (convert_object_clean _ _ Hf). unfold user_object.
  rewrite (populated_appends _ Hn). fold total_bucket.
  replace (Dict.get_default "__total__" []
             (stats self ++ [("__total__", total_bucket)]))
    with total_bucket; [reflexivity|].
  unfold Dict.get_default. now rewrite (get_appended _ _ _ Hn).
Qed.

Lemma convert_to_serializable_data_stats_witness :
  exists self',
    convert_to_serializable_data user_1001_translated false =
    Ok (self',
        {| ser_user_id := "1001";
           ser_lang := "ko";
           ser_stats :=
             TotalStats
               [("translation-stats",
                 Totals [("total", 100); ("Translated", 100);
                         ("NeedReview", 0); ("Approved", 0); ("Rejected", 0)]);
                ("review-stats",
                 Totals [("total", 0); ("Approved", 0); ("Rejected", 0)])] |}).
Proof.
  destruct (convert_to_serializable_data_stats user_1001_translated false
              user_1001_translated_folded eq_refl) as (self' & _ & Hconv).
  exists self'. exact Hconv.
Defined.

(** ** Users without activity *)

Lemma team_users_fresh teams :
  Forall (fun u => stats u = []) (team_users teams).
Proof.
  apply Forall_forall. intros u Hu. unfold team_users in Hu.
  apply in_flat_map in Hu. destruct Hu as (team & _ & Hu).
  apply in_map_iff in Hu. destruct Hu as (id & <- & _). reflexivity.
Qed.

Lemma fresh_needs_no_output u : stats u = [] -> needs_output u false = false.
Proof. unfold needs_output. now intros ->. Qed.

Lemma fresh_user_rows detail u :
  stats u = [] ->
  user_rows detail u =
  [[CStr (user_id u); CStr (lang u); CStr "-"; CStr "-";
    CInt 0; CInt 0; CInt 0; CInt 0; CInt 0; CInt 0; CInt 0; CInt 0]].
Proof.
  intros H. unfold user_rows, total_row. rewrite H.
  destruct detail; reflexivity.
Qed.

Lemma filter_true {A : Type} (l : list A) : filter (fun _ => true) l = l.
Proof. induction l as [|x l IH]; simpl; [reflexivity | now rewrite IH]. Qed.

(** X16: right after [get_weblate_stats] has made one user per translator
    of each team, nobody has activity: without [--include-no-activities] the
    report is the title row alone (CSV) or an empty array (JSON); with it the
    CSV report has, after the title row, one row of zeros per translator, in
    sorted order. *)
Theorem report_without_activity
  (teams : list LanguageTeam) (file_format : string) (detail : bool) :
  write_stats_to_file (team_users teams) file_format false detail =
  Ok (if String.eqb file_format "csv"
      then CsvFile [get_flattened_data_title]
      else JsonFile []) /\
  write_stats_to_file (team_users teams) "csv" true detail =
  Ok (CsvFile
        (get_flattened_data_title ::
         map (fun u =>
                [CStr (user_id u); CStr (lang u); CStr "-"; CStr "-";
                 CInt 0; CInt 0; CInt 0; CInt 0; CInt 0;
                 CInt 0; CInt 0; CInt 0])
           (sorted (team_users teams)))).
Proof.
  pose proof (team_users_fresh teams) as Hfresh. split.
  - unfold write_stats_to_file, users_to_write.
    rewrite (filter_none _ (team_users teams)).
    + destruct (String.eqb file_format "csv"); reflexivity.
    + intros u Hu. rewrite Forall_forall in Hfresh.
      apply fresh_needs_no_output. now apply Hfresh.
  - unfold write_stats_to_file, _write_stats_to_csvfile, users_to_write.
    cbn [String.eqb Ascii.eqb Bool.eqb andb needs_output].
    rewrite filter_true.
    assert (Hsorted : Forall (fun u => stats u = []) (sorted (team_users teams))).
    { apply Forall_forall. intros u Hu.
      apply (Permutation_in _ (sorted_perm _)) in Hu.
      rewrite Forall_forall in Hfresh. now apply Hfresh. }
    assert (Hrows : flat_map (user_rows detail) (sorted (team_users teams)) =
                    map (fun u =>
                           [CStr (user_id u); CStr (lang u); CStr "-"; CStr "-";
                            CInt 0; CInt 0; CInt 0; CInt 0; CInt 0;
                            CInt 0; CInt 0; CInt 0])
                      (sorted (team_users teams))).
    { induction Hsorted as [|u l Hu _ IH]; cbn [flat_map map];
        [reflexivity|].
      rewrite (fresh_user_rows _ _ Hu), IH. reflexivity. }
    rewrite csv_rows_clean.
    + cbn [bind app]. now rewrite Hrows.
    + eapply Forall_impl; [|exact Hsorted].
      intros u Hu. unfold all_clean, every_slot. rewrite Hu. constructor.
Qed.

(** ** The order of users *)

Lemma string_ltb_irrefl s : String.ltb s s = false.
Proof. unfold String.ltb. now rewrite string_compare_refl. Qed.

Lemma string_ltb_asym s1 s2 :
  String.ltb s1 s2 = true -> String.ltb s2 s1 = false.
Proof.
  unfold String.ltb. rewrite (String.compare_antisym s1 s2).
  now destruct (String.compare s2 s1).
Qed.

Lemma string_ltb_total s1 s2 :
  String.ltb s1 s2 = false -> String.ltb s2 s1 = false -> s1 = s2.
Proof.
  unfold String.ltb. rewrite (String.compare_antisym s1 s2).
  destruct (String.compare s2 s1) eqn:E; simpl; try discriminate.
  intros _ _. symmetry. now apply String.compare_eq_iff.
Qed.

(** X17: [User.__lt__] is a strict total order on the pair
    (language code, user id): no user is below itself, two users are never
    below each other, the relation is transitive, and two users neither of
    which is below the other have the same language code and user id. *)
Theorem User_lt_strict_order :
  (forall a, User_lt a a = false) /\
  (forall a b, User_lt a b = true -> User_lt b a = false) /\
  (forall a b c,
      User_lt a b = true -> User_lt b c = true -> User_lt a c = true) /\
  (forall a b,
      User_lt a b = false -> User_lt b a = false ->
      lang a = lang b /\ user_id a = user_id b).
Proof.
  unfold User_lt. split; [|split; [|split]].
  - intros a. rewrite String.eqb_refl. apply string_ltb_irrefl.
  - intros a b. rewrite (String.eqb_sym (lang b) (lang a)).
    destruct (String.eqb (lang a) (lang b)); cbn [negb];
      apply string_ltb_asym.
  - intros a b c.
    destruct (String.eqb_spec (lang a) (lang b)) as [Eab|Nab];
      destruct (String.eqb_spec (lang b) (lang c)) as [Ebc|Nbc];
      destruct (String.eqb_spec (lang a) (lang c)) as [Eac|Nac];
      cbn [negb]; intros H1 H2; try congruence.
    + now apply string_ltb_trans with (user_id b).
    + pose proof (string_ltb_trans _ _ _ H1 H2) as H.
      rewrite Eac, string_ltb_irrefl in H. discriminate.
    + now apply string_ltb_trans with (lang b).
  - intros a b. rewrite (String.eqb_sym (lang b) (lang a)).
    destruct (String.eqb_spec (lang a) (lang b)) as [E|N]; cbn [negb];
      intros H1 H2.
    + split; [exact E | now apply string_ltb_total].
    + destruct N. now apply string_ltb_total.
Qed.

Lemma User_lt_strict_order_witness :
  User_lt (new_User "1000" "ko") (new_User "1001" "ko") = true /\
  User_lt (new_User "1001" "ko") (new_User "1000" "ko") = false /\
  User_lt (new_User "9" "ja") (new_User "1001" "ko") = true.
Proof.
  split; [reflexivity|]. split; [|reflexivity].
  apply (proj1 (proj2 User_lt_strict_order)). reflexivity.
Defined.

(** ** The command line *)

Lemma split_on_cons sep s : exists piece pieces, split_on sep s = piece :: pieces.
Proof.
  induction s as [|c s (piece & pieces & IH)]; cbn [split_on]; [eauto|].
  destruct (Ascii.eqb c sep); [eauto|]. rewrite IH. eauto.
Qed.

Lemma concat_cons2 sep x y l :
  String.concat sep (x :: y :: l) =
  String.append x (String.append sep (String.concat sep (y :: l))).
Proof. reflexivity. Qed.

Lemma split_on_concat sep s :
  String.concat (String sep EmptyString) (split_on sep s) = s.
Proof.
  induction s as [|c s IH]; cbn [split_on]; [reflexivity|].
  destruct (split_on_cons sep s) as (piece & pieces & E).
  rewrite E in IH |- *.
  destruct (Ascii.eqb c sep) eqn:Ec.
  - apply Ascii.eqb_eq in Ec. subst c.
    rewrite concat_cons2, IH. reflexivity.
  - destruct pieces as [|p2 pieces].
    + cbn [String.concat] in IH |- *. now rewrite IH.
    + rewrite concat_cons2 in IH |- *. rewrite <- IH. reflexivity.
Qed.

Lemma split_on_pieces sep s :
  Forall (fun piece => has_char sep piece = false) (split_on sep s).
Proof.
  induction s as [|c s IH]; cbn [split_on]; [repeat constructor|].
  destruct (Ascii.eqb c sep) eqn:Ec; [constructor; [reflexivity | exact IH]|].
  destruct (split_on sep s) as [|piece pieces].
  - constructor; [|constructor]. cbn [has_char]. now rewrite Ec.
  - inversion IH as [|? ? Hp Hps]; subst.
    constructor; [|exact Hps]. cbn [has_char]. now rewrite Ec, Hp.
Qed.

Lemma split_on_whole sep s : has_char sep s = false -> split_on sep s = [s].
Proof.
  induction s as [|c s IH]; cbn [split_on has_char]; [reflexivity|].
  destruct (Ascii.eqb c sep); [discriminate|]. cbn [orb].
  intros H. now rewrite (IH H).
Qed.

(** X18: [_comma_separated_list] loses nothing: joining its pieces with
    commas gives the argument back; there is always at least one piece; no
    piece contains a comma; and an argument without a comma is its own single
    piece. *)
Theorem comma_separated_list_round_trip (s : string) :
  String.concat "," (_comma_separated_list s) = s /\
  _comma_separated_list s <> [] /\
  Forall (fun piece => has_char ","%char piece = false)
    (_comma_separated_list s) /\
  (has_char ","%char s = false -> _comma_separated_list s = [s]).
Proof.
  unfold _comma_separated_list. split; [apply split_on_concat|].
  split; [|split; [apply split_on_pieces | apply split_on_whole]].
  destruct (split_on_cons ","%char s) as (piece & pieces & ->). discriminate.
Qed.

Lemma comma_separated_list_round_trip_witness :
  _comma_separated_list "nova,,horizon" = ["nova"; ""; "horizon"] /\
  _comma_separated_list "ko" = ["ko"].
Proof.
  split; [reflexivity|].
  apply (proj2 (proj2 (proj2 (comma_separated_list_round_trip "ko")))).
  reflexivity.
Defined.

Lemma load_missing_exits content lang_list c :
  In c lang_list -> Dict.mem c content = false ->
  load_from_language_team_yaml content lang_list = Raise (SystemExit 1).
Proof.
  intros Hc Hmem. unfold load_from_language_team_yaml.
  assert (Hin : In c (filter (fun lang_code =>
                                negb (Dict.mem lang_code content))
                        lang_list)).
  { apply filter_In. split; [exact Hc | now rewrite Hmem]. }
  destruct lang_list as [|c0 l]; [contradiction|].
  cbn [truthy].
  destruct (filter _ (c0 :: l)); [contradiction | reflexivity].
Qed.

Lemma split_on_trailing sep s :
  exists pieces,
    split_on sep (String.append s (String sep EmptyString))
    = pieces ++ [EmptyString] /\
    pieces <> [].
Proof.
  induction s as [|c s (pieces & IH & Hne)]; cbn [String.append split_on].
  - rewrite Ascii.eqb_refl. exists [EmptyString]. split;
      [reflexivity | discriminate].
  - destruct (Ascii.eqb c sep).
    + exists (EmptyString :: pieces). rewrite IH.
      split; [reflexivity | discriminate].
    + rewrite IH. destruct pieces as [|piece pieces]; [contradiction|].
      exists (String c piece :: pieces). split; [reflexivity | discriminate].
Qed.

(** X19: an empty [--lang] value is not an empty filter.  Split, it is the
    list of one empty code, and a value that ends in a comma has the empty
    code as its last piece: in both cases the team registry exits with
    status 1 unless the team file has an entry with the empty code. *)
Theorem empty_lang_code_exits (content : Dict.t team_info) :
  Dict.mem "" content = false ->
  load_from_language_team_yaml content (_comma_separated_list "")
  = Raise (SystemExit 1) /\
  forall s,
    load_from_language_team_yaml content
      (_comma_separated_list (String.append s ","))
    = Raise (SystemExit 1).
Proof.
  intros Hmem. split.
  - apply (load_missing_exits content _ ""); [now left | exact Hmem].
  - intros s. unfold _comma_separated_list.
    destruct (split_on_trailing ","%char s) as (pieces & E & _).
    change (String ","%char EmptyString) with "," in E. rewrite E.
    apply (load_missing_exits content _ ""); [|exact Hmem].
    apply in_or_app. right. now left.
Qed.

Lemma empty_lang_code_exits_witness :
  load_from_language_team_yaml team_file (_comma_separated_list "")
  = Raise (SystemExit 1) /\
  load_from_language_team_yaml team_file (_comma_separated_list "ko,")
  = Raise (SystemExit 1).
Proof.
  destruct (empty_lang_code_exits team_file eq_refl) as [Hempty Htrail].
  split; [exact Hempty | exact (Htrail "ko")].
Defined.

Lemma replace_char_absent old new s :
  old <> new -> has_char old (replace_char old new s) = false.
Proof.
  intros Hne. induction s as [|c s IH]; cbn [replace_char has_char];
    [reflexivity|].
  rewrite IH, orb_false_r. destruct (Ascii.eqb c old) eqn:E; [|exact E].
  apply Ascii.eqb_neq. congruence.
Qed.

Lemma replace_char_unchanged old new s :
  has_char old s = false -> replace_char old new s = s.
Proof.
  induction s as [|c s IH]; cbn [replace_char has_char]; [reflexivity|].
  destruct (Ascii.eqb c old); [discriminate|]. cbn [orb].
  intros H. now rewrite (IH H).
Qed.

Lemma has_char_not_In c s l :
  has_char c s = true ->
  Forall (fun v => has_char c v = false) l ->
  ~ In s l.
Proof.
  intros Hs Hl Hin. rewrite Forall_forall in Hl.
  specialize (Hl s Hin). congruence.
Qed.

(** X20: the version filter that [main] hands on never contains a slash:
    every "/" of the [--target-version] names is turned into "-", names
    without a slash stay as they are, normalising twice changes nothing
    more; so with a non-empty version filter every record whose version
    contains a slash is skipped. *)
Theorem normalized_versions_have_no_slash
  (target_version : list string) :
  Forall (fun v => has_char "/"%char v = false)
    (normalize_versions target_version) /\
  normalize_versions (normalize_versions target_version)
  = normalize_versions target_version /\
  (Forall (fun v => has_char "/"%char v = false) target_version ->
   normalize_versions target_version = target_version) /\
  (forall self wss pl,
      target_version <> [] ->
      Forall (fun ws => has_char "/"%char (versionSlug ws) = true) wss ->
      read_from_weblate_stats self wss pl (normalize_versions target_version)
      = Ok self).
Proof.
  assert (Hno : Forall (fun v => has_char "/"%char v = false)
                  (normalize_versions target_version)).
  { unfold normalize_versions. apply Forall_forall. intros v Hv.
    apply in_map_iff in Hv. destruct Hv as (v0 & <- & _).
    apply replace_char_absent. discriminate. }
  assert (Hid : forall l,
             Forall (fun v => has_char "/"%char v = false) l ->
             normalize_versions l = l).
  { unfold normalize_versions. induction 1 as [|v l Hv _ IH]; cbn [map];
      [reflexivity|].
    now rewrite (replace_char_unchanged _ _ _ Hv), IH. }
  split; [exact Hno|]. split; [now apply Hid|]. split; [apply Hid|].
  intros self wss pl Hne Hwss. unfold read_from_weblate_stats.
  induction Hwss as [|ws wss Hslash _ IH]; cbn [for_each]; [reflexivity|].
  rewrite fold_record_skip; [exact IH|].
  right. left. split.
  - unfold normalize_versions. destruct target_version; [contradiction|].
    discriminate.
  - exact (has_char_not_In _ _ _ Hslash Hno).
Qed.

Lemma normalized_versions_have_no_slash_witness :
  normalize_versions ["stable/zed"; "master"] = ["stable-zed"; "master"] /\
  read_from_weblate_stats user_1001
    [{| projectSlug := "i18n"; versionSlug := "stable/zed"; localeId := "ko";
        savedState := "Translated"; wordCount := 4 |}]
    [] (normalize_versions ["stable/zed"; "master"]) = Ok user_1001.
Proof.
  split; [reflexivity|].
  apply (proj2 (proj2 (proj2
           (normalized_versions_have_no_slash ["stable/zed"; "master"])))).
  - discriminate.
  - repeat constructor.
Defined.

(** ** More on the team registry and on activity *)

Lemma contains_ext x l1 l2 :
  (forall c, In c l1 <-> In c l2) -> contains x l1 = contains x l2.
Proof.
  intros H. destruct (contains x l2) eqn:E.
  - apply contains_In. apply H. now apply contains_In.
  - apply contains_not_In. rewrite H. now apply contains_not_In.
Qed.

Lemma truthy_filter_ext {A : Type} (f : A -> bool) l1 l2 :
  (forall c, In c l1 <-> In c l2) ->
  truthy (filter f l1) = truthy (filter f l2).
Proof.
  intros H.
  assert (Hiff : forall l, truthy (filter f l) = true <->
                           exists c, In c l /\ f c = true).
  { intros l. rewrite truthy_not_nil. split.
    - destruct (filter f l) as [|c l'] eqn:E; [congruence|]. intros _.
      exists c. apply filter_In. rewrite E. now left.
    - intros (c & Hc) E. apply filter_In in Hc. rewrite E in Hc.
      contradiction. }
  destruct (truthy (filter f l2)) eqn:E2.
  - apply Hiff. apply Hiff in E2. destruct E2 as (c & Hc & Hf).
    exists c. split; [now apply H | exact Hf].
  - destruct (truthy (filter f l1)) eqn:E1; [|reflexivity].
    apply Hiff in E1. destruct E1 as (c & Hc & Hf).
    assert (truthy (filter f l2) = true)
      by (apply Hiff; exists c; split; [now apply H | exact Hf]).
    congruence.
Qed.

(** X21: the team registry reads the language filter as a set: two filters
    with the same codes, in whatever order and however often repeated, give
    the same outcome, the same exit or the same teams in file order. *)
Theorem load_reads_filter_as_set
  (content : Dict.t team_info) (lang_list lang_list' : list string) :
  (forall c, In c lang_list <-> In c lang_list') ->
  load_from_language_team_yaml content lang_list =
  load_from_language_team_yaml content lang_list'.
Proof.
  intros H. unfold load_from_language_team_yaml.
  assert (Htruthy : truthy lang_list = truthy lang_list').
  { destruct lang_list as [|c l]; destruct lang_list' as [|c' l'];
      try reflexivity.
    - destruct (proj2 (H c') (or_introl eq_refl)).
    - destruct (proj1 (H c) (or_introl eq_refl)). }
  rewrite Htruthy.
  rewrite (truthy_filter_ext
             (fun lang_code => negb (Dict.mem lang_code content))
             lang_list lang_list' H).
  destruct (if truthy lang_list' then _ else _); cbn [bind]; [|reflexivity].
  do 2 f_equal. apply filter_ext. intros entry.
  now rewrite (contains_ext _ _ _ H).
Qed.

Lemma load_reads_filter_as_set_witness :
  load_from_language_team_yaml team_file ["ko"; "ja"; "ko"] =
  load_from_language_team_yaml team_file ["ja"; "ko"].
Proof.
  apply load_reads_filter_as_set. intros c. simpl. tauto.
Defined.

Lemma set_slot_truthy p v st s : truthy (set_slot p v st s) = true.
Proof.
  unfold set_slot. apply truthy_not_nil. apply set_not_nil.
Qed.

Lemma read_activity wss pl vl self :
  buckets_only (stats self) ->
  exists self',
    read_from_weblate_stats self wss pl vl = Ok self' /\
    buckets_only (stats self') /\
    truthy (stats self') =
    truthy (stats self) || existsb (keeps pl vl (lang self)) wss.
Proof.
  unfold read_from_weblate_stats. revert self.
  induction wss as [|ws wss IH]; intros self Hb; cbn [for_each existsb].
  - exists self. rewrite orb_false_r. auto.
  - rewrite fold_record_keeps.
    destruct (keeps pl vl (lang self) ws) eqn:Ek; cbn [bind orb].
    + destruct (slot_or_new_bucket (projectSlug ws) (versionSlug ws) _ Hb)
        as (t & r & Hslot).
      rewrite (count_record_bucket _ _ _ _ Hslot). cbn [bind].
      edestruct IH as (self' & Hread & Hb' & Htr);
        [|exists self'; split; [exact Hread|]; split; [exact Hb'|]].
      * cbn [stats with_stats]. now apply set_slot_buckets_only.
      * rewrite Htr. cbn [stats with_stats]. rewrite set_slot_truthy.
        now rewrite orb_true_r.
    + now apply IH.
Qed.

(** X22: a user appears in the report without [--include-no-activities]
    exactly when some record got past the three guards: after folding a
    batch into a fresh user, [needs_output(False)] is true if and only if at
    least one record of the batch has the user's language and a project and
    a version that the filters let through, whatever its state label and
    word count. *)
Theorem needs_output_iff_record_kept
  (user_id language_code : string) (wss : list WeblateStat)
  (pl vl : list string) :
  exists self,
    read_from_weblate_stats (new_User user_id language_code) wss pl vl
      = Ok self /\
    needs_output self false = existsb (keeps pl vl language_code) wss.
Proof.
  destruct (read_activity wss pl vl (new_User user_id language_code))
    as (self & Hread & Hb & Htr); [constructor|].
  exists self. split; [exact Hread|].
  now rewrite (buckets_only_needs_output _ Hb), Htr.
Qed.

(** ** Skipped and counted records *)

(** C6 as stated fails: "contributes nothing" is not the same as "filtered
    out".  [fuzzy_record] passes every filter of [user_1001_translated], whose
    ("i18n", "master") bucket is already there; its state label is in neither
    field list, so the fold leaves the user exactly as it was. *)
Lemma kept_record_may_add_nothing :
  ~ (read_from_weblate_stats user_1001_translated [fuzzy_record] [] []
     = Ok user_1001_translated <->
     filtered_out [] [] user_1001_translated fuzzy_record).
Proof.
  intros [Hskip _].
  destruct (Hskip eq_refl) as [[H _]|[[H _]|H]]; apply H; reflexivity.
Qed.

(** C6, amended: a record of a folded batch whose project is missing from a
    non-empty project filter, or whose version is missing from a non-empty
    version filter, or whose language is not the user's, is skipped: the
    batch gives the same result with the record removed.  Every other
    record, wherever it stands in the batch, is counted: its
    (project, version) bucket is found or created, in each counter set whose
    field list has the state label the word count is added to the label's
    counter and to "total", the other counter set and every other slot stay
    as they were.  Hence a record is skipped exactly when it is filtered out
    on a fresh user, where a counted record always leaves a bucket; but a
    counted record whose label is in neither list and whose bucket is
    already there changes nothing either. *)
Theorem filtered_out_skipped_else_counted
  (self : User) (ws : WeblateStat) (pl vl : list string) :
  (filtered_out pl vl self ws ->
   forall before after,
     read_from_weblate_stats self (before ++ ws :: after) pl vl =
     read_from_weblate_stats self (before ++ after) pl vl) /\
  (~ filtered_out pl vl self ws ->
   folded self ->
   forall before,
   exists s1 s2 t r,
     read_from_weblate_stats self before pl vl = Ok s1 /\
     read_from_weblate_stats self (before ++ [ws]) pl vl = Ok s2 /\
     slot_or_new (projectSlug ws) (versionSlug ws) (stats s1) = Bucket t r /\
     find_slot (projectSlug ws) (versionSlug ws) (stats s2) =
     Some (Bucket
             (if contains (savedState ws) trans_fields
              then iadd "total" (wordCount ws)
                     (iadd (savedState ws) (wordCount ws) t)
              else t)
             (if contains (savedState ws) review_fields
              then iadd "total" (wordCount ws)
                     (iadd (savedState ws) (wordCount ws) r)
              else r)) /\
     (forall p v,
         p <> projectSlug ws \/ v <> versionSlug ws ->
         find_slot p v (stats s2) = find_slot p v (stats s1)) /\
     (forall k,
         trans_count s2 (projectSlug ws) (versionSlug ws) k =
         trans_count s1 (projectSlug ws) (versionSlug ws) k +
         if contains (savedState ws) trans_fields
         then (if String.eqb k (savedState ws) then wordCount ws else 0)
              + (if String.eqb k "total" then wordCount ws else 0)
         else 0) /\
     (forall k,
         review_count s2 (projectSlug ws) (versionSlug ws) k =
         review_count s1 (projectSlug ws) (versionSlug ws) k +
         if contains (savedState ws) review_fields
         then (if String.eqb k (savedState ws) then wordCount ws else 0)
              + (if String.eqb k "total" then wordCount ws else 0)
         else 0)) /\
  (filtered_out pl vl self ws <->
   read_from_weblate_stats (new_User (user_id self) (lang self)) [ws] pl vl
   = Ok (new_User (user_id self) (lang self))).
Proof.
  split; [|split].
  - intros Hk before after. unfold read_from_weblate_stats.
    rewrite !for_each_app.
    destruct (for_each (fold_record pl vl) before self) as [s1|e] eqn:E;
      cbn [bind for_each]; [|reflexivity].
    apply read_identity in E. destruct E as [_ El].
    rewrite fold_record_skip; [reflexivity|].
    unfold filtered_out in Hk. now rewrite El.
  - intros Hn Hf before. apply not_filtered_out_passes in Hn.
    destruct (read_buckets_only before pl vl self (folded_buckets_only _ Hf))
      as (s1 & Hread & Hb).
    assert (Hpass : passes_filters pl vl s1 ws).
    { destruct (read_identity _ _ _ _ _ Hread) as [_ El].
      unfold passes_filters in *. now rewrite El. }
    destruct (slot_or_new_bucket (projectSlug ws) (versionSlug ws) _ Hb)
      as (t & r & Hslot).
    destruct (count_record_counts s1 ws t r Hslot) as (s2 & Hcount & Ht & Hr).
    exists s1, s2, t, r. split; [exact Hread|]. split.
    { unfold read_from_weblate_stats in *. rewrite for_each_app, Hread.
      cbn [bind for_each]. rewrite (fold_record_passes _ _ _ _ Hpass), Hcount.
      reflexivity. }
    split; [exact Hslot|].
    rewrite (count_record_bucket _ _ _ _ Hslot) in Hcount.
    injection Hcount as Hs2.
    split; [|split; [|split]].
    + rewrite <- Hs2. cbn [stats with_stats]. apply find_slot_set_same.
    + intros p v Hne. rewrite <- Hs2. cbn [stats with_stats].
      apply find_slot_set_other. destruct Hne; [left|right]; congruence.
    + intros k. rewrite Ht, !String.eqb_refl. reflexivity.
    + intros k. rewrite Hr, !String.eqb_refl. reflexivity.
  - unfold read_from_weblate_stats. cbn [for_each]. split.
    + intros Hk. now rewrite fold_record_skip.
    + intros Hread.
      destruct (passes_or_filtered_out pl vl
                  (new_User (user_id self) (lang self)) ws) as [Ha|Hk];
        [|exact Hk].
      rewrite (fold_record_passes _ _ _ _ Ha) in Hread.
      rewrite count_record_fresh in Hread. cbn [bind] in Hread.
      unfold with_stats, new_User in Hread. cbn [user_id lang] in Hread.
      discriminate Hread.
Qed.

Lemma filtered_out_skipped_else_counted_witness :
  (filtered_out [] [] user_1001 japanese_record /\
   read_from_weblate_stats user_1001
     ([translated_record] ++ japanese_record :: [approved_record]) [] [] =
   read_from_weblate_stats user_1001
     ([translated_record] ++ [approved_record]) [] []) /\
  (~ filtered_out [] [] user_1001 approved_record /\
   folded user_1001 /\
   exists s1 s2,
     read_from_weblate_stats user_1001 [translated_record] [] [] = Ok s1 /\
     read_from_weblate_stats user_1001
       ([translated_record] ++ [approved_record]) [] [] = Ok s2 /\
     trans_count s2 "i18n" "master" "Approved" =
     trans_count s1 "i18n" "master" "Approved" + 20 /\
     review_count s2 "i18n" "master" "total" =
     review_count s1 "i18n" "master" "total" + 20).
Proof.
  assert (Hk : filtered_out [] [] user_1001 japanese_record).
  { right. right. discriminate. }
  assert (Hn : ~ filtered_out [] [] user_1001 approved_record).
  { intros [[H _]|[[H _]|H]]; apply H; reflexivity. }
  split; [split; [exact Hk|] | split; [exact Hn | split; [apply folded_new|]]].
  - exact (proj1 (filtered_out_skipped_else_counted
                    user_1001 japanese_record [] [])
             Hk [translated_record] [approved_record]).
  - destruct (proj1 (proj2 (filtered_out_skipped_else_counted
                              user_1001 approved_record [] []))
                Hn (folded_new "1001" "ko") [translated_record])
      as (s1 & s2 & t & r & H1 & H2 & _ & _ & _ & Ht & Hr).
    exists s1, s2. split; [exact H1|]. split; [exact H2|].
    split; [exact (Ht "Approved") | exact (Hr "total")].
Defined.

(** ** [needs_output] after the totals were stored *)

(** C5: [needs_output(False)] is meant to be true exactly when at least one
    (project, version) bucket is recorded.  A user into which nothing was
    folded has none and gets false; but once [populate_total_stats] has
    stored the two dicts of totals under "__total__" (both converters call
    it), the stats mapping is no longer empty and [needs_output(False)] is
    true, although still no bucket is recorded.  Before the totals are
    stored the answer follows the buckets, see [needs_output_spec]. *)
Theorem needs_output_true_once_totals_stored :
  needs_output (new_User "1002" "ko") false = false /\
  exists self',
    populate_total_stats (new_User "1002" "ko") = Ok self' /\
    needs_output self' false = true /\
    (forall p v t r, find_slot p v (stats self') <> Some (Bucket t r)) /\
    (forall p v k,
        trans_count self' p v k = 0 /\ review_count self' p v k = 0).
Proof.
  split; [reflexivity|]. eexists. split; [reflexivity|].
  split; [reflexivity|].
  assert (Hslot : forall p v t r,
             find_slot p v
               [("__total__",
                 [("translation-stats", Totals (zero_counters trans_fields));
                  ("review-stats", Totals (zero_counters review_fields))])]
             <> Some (Bucket t r)).
  { intros p v t r. unfold find_slot. cbn [Dict.get].
    destruct (String.eqb "__total__" p); [|discriminate].
    cbn [Dict.get].
    destruct (String.eqb "translation-stats" v); [discriminate|].
    destruct (String.eqb "review-stats" v); discriminate. }
  split; [exact Hslot|].
  intros p v k. unfold trans_count, review_count. cbn [stats with_stats].
  specialize (Hslot p v).
  destruct (find_slot p v _) as [[t r|c]|]; auto.
  now destruct (Hslot t r).
Qed.
